(** * Proximity dispatch: distance resolution, ranking, arbitration, assignment

    A shallow embedding of [agents.py] (the three graph nodes and
    [compute_distance]), of the graph of [graph.py] and of the
    [/complete-assignment] endpoint of [main.py].

    Conventions of the embedding:
    - Python values are the trees of [pyval]; floats and ints are both
      idealised as rationals ([Q]), so there is neither NaN nor overflow;
    - a MongoDB document is a finite map from field names to values, a
      collection is the list of its documents in natural (insertion) order;
    - the network, [geopy], [json.loads] and [float] on strings are not part
      of the repository: they are the fields of a [world];
    - code that raises, reads or writes the database, or calls a remote
      service runs in the monad [M]: an exception-or-value together with
      the environment (database and log of remote calls) it leaves behind.
      Of a [print] only the subscripts that can raise are modelled. *)

From Stdlib Require Import QArith Qround Qabs ZArith Lia Lqa List Ascii Sorting.Sorted Sorting.Permutation.
From stdpp Require Import gmap strings list fin_maps sorting.

Local Open Scope Z_scope.
Set Warnings "-register-all".

(** ** Python values *)

Inductive pyval : Type :=
  | PNone
  | PBool (b : bool)
  | PNum (q : Q)
  | PStr (s : string)
  | PObjId (n : nat)                       (* bson.ObjectId *)
  | PList (l : list pyval)
  | PDict (d : list (string * pyval)).     (* a parsed JSON object *)

Abbreviation doc := (gmap string pyval).

Inductive exn : Type :=
  | Exception (msg : string)
  | ExceptionF (before : string) (value : pyval) (after : string)
      (* Exception(f"{before}{value}{after}"): the message is left in
         its parts, the text of [value] is not computed *)
  | ValueError (msg : string)
  | KeyError (key : string)
  | TypeError
  | AttributeError
  | IndexError
  | RequestException                       (* requests: no connection, timeout *)
  | JSONDecodeError
  | HTTPException (status : Z) (detail : string).

(** [bool(v)] *)
Definition truthy (v : pyval) : bool :=
  match v with
  | PNone => false
  | PBool b => b
  | PNum q => negb (Qeq_bool q 0)
  | PStr s => negb (String.eqb s "")
  | PObjId _ => true
  | PList l => match l with [] => false | _ => true end
  | PDict d => match d with [] => false | _ => true end
  end.

(** [d.get(k)] with Python's default [None] *)
Definition get (d : doc) (k : string) : pyval := default PNone (d !! k).

Fixpoint assoc (k : string) (d : list (string * pyval)) : option pyval :=
  match d with
  | [] => None
  | (k', v) :: r => if String.eqb k k' then Some v else assoc k r
  end.

Definition num_of_bool (b : bool) : Q := if b then 1%Q else 0%Q.

(** Python's [==]: numbers by value, [True == 1], lists element-wise, dicts
    as sets of items. *)
Fixpoint py_eq (a b : pyval) {struct a} : bool :=
  match a, b with
  | PNone, PNone => true
  | PBool x, PBool y => Bool.eqb x y
  | PBool x, PNum y => Qeq_bool (num_of_bool x) y
  | PNum x, PBool y => Qeq_bool x (num_of_bool y)
  | PNum x, PNum y => Qeq_bool x y
  | PStr x, PStr y => String.eqb x y
  | PObjId x, PObjId y => Nat.eqb x y
  | PList l, PList l' =>
      (fix go (l : list pyval) (l' : list pyval) {struct l} : bool :=
         match l, l' with
         | [], [] => true
         | x :: xs, y :: ys => py_eq x y && go xs ys
         | _, _ => false
         end) l l'
  | PDict d, PDict d' =>
      Nat.eqb (length d) (length d') &&
      (fix go (d : list (string * pyval)) {struct d} : bool :=
         match d with
         | [] => true
         | (k, v) :: r =>
             match assoc k d' with
             | Some v' => py_eq v v'
             | None => false
             end && go r
         end) d
  | _, _ => false
  end.

(** ** Rounding

    [round(x, 2)] rounds the exact value of [x] to the nearest multiple of
    0.01, ties to even. *)

Definition round_half_even (x : Q) : Z :=
  let f := Qfloor x in
  match Qcompare (x - inject_Z f) (1 # 2) with
  | Lt => f
  | Gt => f + 1
  | Eq => if Z.even f then f else f + 1
  end.

Definition round2 (x : Q) : Q := Qmake (round_half_even (x * 100)) 100.

(** ** The database *)

Record database : Type := mkDb {
  customers : list doc;
  technicians : list doc;
  assignments : list doc;
  next_oid : nat                           (* supply of fresh ObjectIds *)
}.

(** BSON equality: structural, numbers by value, sub-documents field by
    field in order; a boolean never equals a number. *)
Fixpoint bson_eq (a b : pyval) {struct a} : bool :=
  match a, b with
  | PNone, PNone => true
  | PBool x, PBool y => Bool.eqb x y
  | PNum x, PNum y => Qeq_bool x y
  | PStr x, PStr y => String.eqb x y
  | PObjId x, PObjId y => Nat.eqb x y
  | PList l, PList l' =>
      (fix go (l : list pyval) (l' : list pyval) {struct l} : bool :=
         match l, l' with
         | [], [] => true
         | x :: xs, y :: ys => bson_eq x y && go xs ys
         | _, _ => false
         end) l l'
  | PDict d, PDict d' =>
      (fix go (d : list (string * pyval)) (d' : list (string * pyval))
           {struct d} : bool :=
         match d, d' with
         | [], [] => true
         | (k, v) :: r, (k', v') :: r' =>
             String.eqb k k' && bson_eq v v' && go r r'
         | _, _ => false
         end) d d'
  | _, _ => false
  end.

(** The filter [{k: v}]: the field equals [v], or is an array with an
    element equal to [v]; a missing field matches only [None]. *)
Definition field_is (d : doc) (k : string) (v : pyval) : bool :=
  match d !! k with
  | None => bson_eq PNone v
  | Some (PList l) => bson_eq (PList l) v || existsb (fun x => bson_eq x v) l
  | Some x => bson_eq x v
  end.

Inductive cond : Type :=
  | Is (k : string) (v : pyval)            (* {k: v} *)
  | IsNot (k : string) (v : pyval).        (* {k: {"$ne": v}} *)

Inductive query : Type :=
  | All (cs : list cond)                   (* {k1: .., k2: ..} *)
  | AnyOf (qs : list (list cond)).         (* {"$or": [{..}, {..}]} *)

Definition holds (d : doc) (c : cond) : bool :=
  match c with
  | Is k v => field_is d k v
  | IsNot k v => negb (field_is d k v)
  end.

Definition matches (q : query) (d : doc) : bool :=
  match q with
  | All cs => forallb (holds d) cs
  | AnyOf qs => existsb (forallb (holds d)) qs
  end.

(** [{"$set": {...}}] *)
Definition set_fields (upd : list (string * pyval)) (d : doc) : doc :=
  foldl (fun acc kv => <[kv.1 := kv.2]> acc) d upd.

Definition coll_find (q : query) (c : list doc) : list doc :=
  List.filter (matches q) c.

Definition coll_find_one (q : query) (c : list doc) : option doc :=
  List.find (matches q) c.

Definition coll_update_many (q : query) (upd : list (string * pyval))
    (c : list doc) : list doc :=
  List.map (fun d => if matches q d then set_fields upd d else d) c.

Fixpoint coll_update_one (q : query) (upd : list (string * pyval))
    (c : list doc) : list doc :=
  match c with
  | [] => []
  | d :: r =>
      if matches q d then set_fields upd d :: r
      else d :: coll_update_one q upd r
  end.

(** ** The outside world *)

Definition coord : Type := Q * Q.           (* (latitude, longitude) *)

Record response : Type := mkResponse {
  status_code : Z;
  text : string
}.

(** Remote services answer as a function of the request and of the number
    of remote calls made before it; [None] is a raised exception. *)
Record world : Type := mkWorld {
  ors_directions : nat -> coord -> coord -> option response;
  osrm_route : nat -> coord -> coord -> option response;
  groq_chat : nat -> pyval -> option response;
  geodesic_km : coord -> coord -> option Q;
  json_loads : string -> option pyval;
  float_of_str : string -> option Q
}.

Inductive call : Type :=
  | CallORS (a b : coord)
  | CallOSRM (a b : coord)
  | CallGeopy (a b : coord)
  | CallGroq (shortlist : pyval).

Record env : Type := mkEnv {
  db : database;
  calls : list call
}.

(** ** Exceptions and effects *)

Inductive result (A : Type) : Type :=
  | Ok (a : A)
  | Raise (e : exn).
Arguments Ok {A} a.
Arguments Raise {A} e.

Definition rbind {A B} (r : result A) (k : A -> result B) : result B :=
  match r with
  | Ok a => k a
  | Raise e => Raise e
  end.

Notation "x <~ r ;; k" := (rbind r (fun x => k))
  (at level 100, r at next level, right associativity).

Definition M (A : Type) : Type := env -> result A * env.

Definition ret {A} (a : A) : M A := fun e => (Ok a, e).
Definition raise {A} (x : exn) : M A := fun e => (Raise x, e).
Definition lift {A} (r : result A) : M A := fun e => (r, e).

Definition bind {A B} (m : M A) (k : A -> M B) : M B :=
  fun e =>
    match m e with
    | (Ok a, e') => k a e'
    | (Raise x, e') => (Raise x, e')
    end.

(** [try: m except Exception: h]; what [m] did before raising stays done. *)
Definition try_except {A} (m : M A) (h : exn -> M A) : M A :=
  fun e =>
    match m e with
    | (Ok a, e') => (Ok a, e')
    | (Raise x, e') => h x e'
    end.

Notation "x <- m ;; k" := (bind m (fun x => k))
  (at level 100, m at next level, right associativity).

Definition read_db : M database := fun e => (Ok (db e), e).
Definition write_db (f : database -> database) : M unit :=
  fun e => (Ok tt, mkEnv (f (db e)) (calls e)).

(** A call that leaves the process: logged, then answered by the world. *)
Definition remote {A} (c : call) (x : exn) (answer : nat -> option A) : M A :=
  fun e =>
    let e' := mkEnv (db e) (calls e ++ [c]) in
    match answer (length (calls e)) with
    | Some a => (Ok a, e')
    | None => (Raise x, e')
    end.

(** ** Subscripts and conversions *)

(** [v[k]] for a string [k] *)
Definition getitem (v : pyval) (k : string) : result pyval :=
  match v with
  | PDict d => match assoc k d with Some x => Ok x | None => Raise (KeyError k) end
  | _ => Raise TypeError
  end.

(** [v[0]] *)
Definition getitem0 (v : pyval) : result pyval :=
  match v with
  | PList (x :: _) => Ok x
  | PList [] => Raise IndexError
  | PStr (String c _) => Ok (PStr (String c EmptyString))
  | PStr EmptyString => Raise IndexError
  | PDict _ => Raise (KeyError "0")
  | _ => Raise TypeError
  end.

(** [d[k]] on a document *)
Definition field (d : doc) (k : string) : result pyval :=
  match d !! k with
  | Some x => Ok x
  | None => Raise (KeyError k)
  end.

(** [v / 1000.0] *)
Definition div1000 (v : pyval) : result Q :=
  match v with
  | PNum q => Ok (q / 1000)%Q
  | PBool b => Ok (num_of_bool b / 1000)%Q
  | _ => Raise TypeError
  end.

Section Program.

Variable w : world.

(** [res.json()] *)
Definition res_json (res : response) : result pyval :=
  match json_loads w (text res) with
  | Some v => Ok v
  | None => Raise JSONDecodeError
  end.

(** [float(v)] *)
Definition py_float (v : pyval) : result Q :=
  match v with
  | PNum q => Ok q
  | PBool b => Ok (num_of_bool b)
  | PStr s =>
      match float_of_str w s with
      | Some q => Ok q
      | None => Raise (ValueError "could not convert string to float")
      end
  | _ => Raise TypeError
  end.

(** ** [compute_distance] (agents.py) *)

(** [data["features"][0]["properties"]["segments"][0]["distance"]] *)
Definition ors_meters (data : pyval) : result pyval :=
  a <~ getitem data "features" ;;
  b <~ getitem0 a ;;
  c <~ getitem b "properties" ;;
  d <~ getitem c "segments" ;;
  e <~ getitem0 d ;;
  getitem e "distance".

(** [osm_data["routes"][0]["distance"]] *)
Definition osrm_meters (data : pyval) : result pyval :=
  a <~ getitem data "routes" ;;
  b <~ getitem0 a ;;
  getitem b "distance".

Definition try_ors (customer_coord tech_coord : coord) : M (option Q * string) :=
  res <- remote (CallORS customer_coord tech_coord) RequestException
           (fun t => ors_directions w t customer_coord tech_coord) ;;
  if negb (status_code res =? 200) then raise (Exception "ORS failed")
  else
    data <- lift (res_json res) ;;
    meters <- lift (ors_meters data) ;;
    km <- lift (div1000 meters) ;;
    ret (Some (round2 km), "ORS"%string).

(** The second [try]: [Some] is its [return], [None] is falling out of it
    (status other than 200, or an exception swallowed by its [except]). *)
Definition try_osrm (customer_coord tech_coord : coord)
    : M (option (option Q * string)) :=
  try_except
    (osm_res <- remote (CallOSRM customer_coord tech_coord) RequestException
                  (fun t => osrm_route w t customer_coord tech_coord) ;;
     if status_code osm_res =? 200 then
       osm_data <- lift (res_json osm_res) ;;
       meters <- lift (osrm_meters osm_data) ;;
       km <- lift (div1000 meters) ;;
       ret (Some (Some (round2 km), "OSRM"%string))
     else ret None)
    (fun e2 => ret None).

Definition try_geopy (customer_coord tech_coord : coord) : M (option Q * string) :=
  try_except
    (km <- remote (CallGeopy customer_coord tech_coord) (ValueError "geodesic")
             (fun _ => geodesic_km w customer_coord tech_coord) ;;
     ret (Some (round2 km), "Geopy"%string))
    (fun e3 => ret (None, "Failed"%string)).

Definition compute_distance (customer_coord tech_coord : coord)
    : M (option Q * string) :=
  try_except (try_ors customer_coord tech_coord)
    (fun e =>
       r <- try_osrm customer_coord tech_coord ;;
       match r with
       | Some found => ret found
       | None => try_geopy customer_coord tech_coord
       end).


(** ** The dispatch state (graph.py) *)

Record DispatchState : Type := mkState {
  ticket : doc;
  customer : option doc;
  best : option doc;
  llm_reason : option pyval
}.

(** [o.get(..)] and [o[..]] when [o] may be [None] *)
Definition deref {A} (o : option A) (x : exn) : result A :=
  match o with
  | Some a => Ok a
  | None => Raise x
  end.

Definition of_option (o : option pyval) : pyval := default PNone o.

(** ** [load_customer_agent] *)

Definition doc_falsy (o : option doc) : bool :=
  match o with
  | None => true
  | Some d => bool_decide (d = ∅)
  end.

Definition load_customer_agent (state : DispatchState) : M DispatchState :=
  let cust_id := get (ticket state) "id" in
  match cust_id with
  | PNone => raise (Exception "Missing customer ID in ticket")
  | _ =>
      d <- read_db ;;
      let found := coll_find_one (All [Is "customer_id" cust_id]) (customers d) in
      if doc_falsy found
      then raise (ExceptionF "Customer with ID " cust_id " not found")
      else ret (mkState (ticket state) found (best state) (llm_reason state))
  end.

(** ** [compute_proximity_agent]: the ranker *)

(** The body of the [for] loop. The handler overwrites both fields, so it
    leaves the same document whether or not the body had set them. *)
Definition annotate (customer : option doc) (tech : doc) : M doc :=
  try_except
    (c <- lift (deref customer AttributeError) ;;
     if negb (forallb truthy [get c "latitude"; get c "longitude";
                              get tech "latitude"; get tech "longitude"])
     then raise (ValueError "Missing coordinates")
     else
       clat <- lift (v <~ field c "latitude" ;; py_float v) ;;
       clon <- lift (v <~ field c "longitude" ;; py_float v) ;;
       tlat <- lift (v <~ field tech "latitude" ;; py_float v) ;;
       tlon <- lift (v <~ field tech "longitude" ;; py_float v) ;;
       dm <- compute_distance (clat, clon) (tlat, tlon) ;;
       let tech1 := <["distance_km" := of_option (PNum <$> dm.1)]> tech in
       let tech2 := <["distance_method" := PStr dm.2]> tech1 in
       _ <- lift (field tech2 "technician_id") ;;      (* the f-string of print *)
       ret tech2)
    (fun e =>
       ret (<["distance_method" := PStr "Failed"]>
              (<["distance_km" := PNone]> tech))).

Fixpoint for_each {A B} (f : A -> M B) (l : list A) : M (list B) :=
  match l with
  | [] => ret []
  | x :: r => y <- f x ;; ys <- for_each f r ;; ret (y :: ys)
  end.

(** [t["distance_km"] is not None]; the loop has set the field in every
    document. *)
Definition resolved (t : doc) : bool :=
  match get t "distance_km" with
  | PNone => false
  | _ => true
  end.

(** The sort key [t["distance_km"]]: after the filter it is always a number
    (lemma [annotation_key] below), so the other branch is never taken. *)
Definition distance_key (t : doc) : Q :=
  match t !! "distance_km" with
  | Some (PNum q) => q
  | _ => 0%Q
  end.

(** [sorted(l, key=key)]: stable, ascending. *)
Fixpoint insert_by {A} (key : A -> Q) (x : A) (l : list A) : list A :=
  match l with
  | [] => [x]
  | y :: r => if Qle_bool (key x) (key y) then x :: y :: r
              else y :: insert_by key x r
  end.

Definition sorted {A} (key : A -> Q) (l : list A) : list A :=
  foldr (insert_by key) [] l.

Definition rank (annotated : list doc) : list doc :=
  firstn 3 (sorted distance_key (List.filter resolved annotated)).

(** The list comprehension of the prompt, entry by entry: its three
    subscripts. The list it makes is handed to [json.dumps], below. *)
Definition prompt_entry (t : doc) : result pyval :=
  i <~ field t "technician_id" ;;
  n <~ field t "name" ;;
  k <~ field t "distance_km" ;;
  Ok (PDict [("id"%string, i); ("name"%string, n); ("distance_km"%string, k)]).

Fixpoint prompt_entries (l : list doc) : result (list pyval) :=
  match l with
  | [] => Ok []
  | t :: r => x <~ prompt_entry t ;; xs <~ prompt_entries r ;; Ok (x :: xs)
  end.

(** What [json.dumps] encodes: everything but an [ObjectId], at any
    depth. *)
Fixpoint json_serialisable (v : pyval) : bool :=
  match v with
  | PObjId _ => false
  | PList l =>
      (fix all (l : list pyval) : bool :=
         match l with
         | [] => true
         | x :: r => json_serialisable x && all r
         end) l
  | PDict d =>
      (fix all (d : list (string * pyval)) : bool :=
         match d with
         | [] => true
         | (_, x) :: r => json_serialisable x && all r
         end) d
  | _ => true
  end.

(** [json.dumps(v, indent=2)] in the prompt: only whether it raises
    matters here, the list itself is what the model service is asked. *)
Definition json_dumps (v : pyval) : result unit :=
  if json_serialisable v then Ok tt else Raise TypeError.

(** ** The arbiter (second half of [compute_proximity_agent]) *)

Definition is_space (a : ascii) : bool :=
  let n := nat_of_ascii a in
  ((9 <=? n)%nat && (n <=? 13)%nat) || ((28 <=? n)%nat && (n <=? 32)%nat).

(** [not s.strip()], on ASCII text *)
Fixpoint blank (s : string) : bool :=
  match s with
  | EmptyString => true
  | String a r => is_space a && blank r
  end.

(** [result.get(k, dflt)] *)
Definition dict_get (v : pyval) (k : string) (dflt : pyval) : result pyval :=
  match v with
  | PDict d => Ok (default dflt (assoc k d))
  | _ => Raise AttributeError
  end.

(** [json.loads(content)] *)
Definition loads (content : pyval) : result pyval :=
  match content with
  | PStr s => match json_loads w s with
              | Some v => Ok v
              | None => Raise JSONDecodeError
              end
  | _ => Raise TypeError
  end.

(** [next((t for t in top3 if t["technician_id"] == result.get("id")), dflt)] *)
Fixpoint next_match (res : pyval) (l : list doc) (dflt : doc) : result doc :=
  match l with
  | [] => Ok dflt
  | t :: r =>
      tid <~ field t "technician_id" ;;
      rid <~ dict_get res "id" PNone ;;
      if py_eq tid rid then Ok t else next_match res r dflt
  end.

Definition fallback_reason : string :=
  "LLM failed, assigned first nearest technician".

Definition default_reason : string := "Chosen based on proximity".

(** [choose top3 first payload]: [first] is [top3[0]]. *)
Definition choose (top3 : list doc) (first : doc) (payload : pyval)
    : M (doc * pyval) :=
  try_except
    (res <- remote (CallGroq payload) RequestException
              (fun t => groq_chat w t payload) ;;
     if negb (status_code res =? 200) || blank (text res)
     then raise (ValueError "LLM returned empty or error response")
     else
       body <- lift (res_json res) ;;
       content <- lift (a <~ getitem body "choices" ;;
                        b <~ getitem0 a ;;
                        c <~ getitem b "message" ;;
                        getitem c "content") ;;
       result <- lift (loads content) ;;
       chosen <- lift (next_match result top3 first) ;;
       reason <- lift (dict_get result "reason" (PStr default_reason)) ;;
       ret (chosen, reason))
    (fun e => ret (first, PStr fallback_reason)).

Definition no_free : exn := Exception "No free technicians available".
Definition no_valid : exn := Exception "No technicians with valid distance computed".

Definition compute_proximity_agent (state : DispatchState) : M DispatchState :=
  d <- read_db ;;
  let candidates := coll_find (All [Is "is_free" (PBool true)]) (technicians d) in
  match candidates with
  | [] => raise no_free
  | _ =>
      annotated <- for_each (annotate (customer state)) candidates ;;
      let top3 := rank annotated in
      match top3 with
      | [] => raise no_valid
      | first :: _ =>
          entries <- lift (prompt_entries top3) ;;
          _ <- lift (json_dumps (PList entries)) ;;
          cr <- choose top3 first (PList entries) ;;
          ret (mkState (ticket state) (customer state) (Some cr.1) (Some cr.2))
      end
  end.

(** ** [assign_agent]: the coordinator *)

(** [insert_one]: the server gives the document a fresh [_id]. *)
Definition insert_assignment (d : doc) (b : database) : database :=
  mkDb (customers b) (technicians b)
       (assignments b ++ [<["_id" := PObjId (next_oid b)]> d])
       (S (next_oid b)).

Definition on_assignments (f : list doc -> list doc) (b : database) : database :=
  mkDb (customers b) (technicians b) (f (assignments b)) (next_oid b).

Definition on_technicians (f : list doc -> list doc) (b : database) : database :=
  mkDb (customers b) (f (technicians b)) (assignments b) (next_oid b).

Definition stale (tech_id cust_id : pyval) : query :=
  AnyOf [[Is "tech_id" tech_id; Is "status" (PStr "assigned")];
         [Is "customer_id" cust_id; Is "status" (PStr "assigned")]].

Definition completed : list (string * pyval) :=
  [("status"%string, PStr "completed")].

Definition assign_agent (state : DispatchState) : M DispatchState :=
  b <- lift (deref (best state) AttributeError) ;;
  c <- lift (deref (customer state) AttributeError) ;;
  let tech_id := get b "technician_id" in
  let cust_id := get c "customer_id" in
  d <- read_db ;;
  let tech_doc := coll_find_one (All [Is "technician_id" tech_id]) (technicians d) in
  let cust_doc := coll_find_one (All [Is "customer_id" cust_id]) (customers d) in
  _ <- write_db (on_assignments (coll_update_many (stale tech_id cust_id) completed)) ;;
  tech_oid <- lift (t <~ deref tech_doc TypeError ;; field t "_id") ;;
  _ <- write_db (on_technicians
         (coll_update_one (All [Is "_id" tech_oid])
            [("is_free"%string, PBool false);
             ("availability_status"%string, PStr "assigned");
             ("assigned_customer"%string, cust_id)])) ;;
  record <- lift (
    cd <~ deref cust_doc TypeError ;;
    coid <~ field cd "_id" ;;
    td <~ deref tech_doc TypeError ;;
    toid <~ field td "_id" ;;
    cname <~ field cd "name" ;;
    tname <~ field td "name" ;;
    Ok (list_to_map
          [("customer_id"%string, cust_id);
           ("tech_id"%string, tech_id);
           ("customer_object_id"%string, coid);
           ("tech_object_id"%string, toid);
           ("customer_name"%string, cname);
           ("tech_name"%string, tname);
           ("distance_km"%string, get b "distance_km");
           ("distance_method"%string, get b "distance_method");
           ("llm_reason"%string, of_option (llm_reason state));
           ("status"%string, PStr "assigned")] : doc)) ;;
  _ <- write_db (insert_assignment record) ;;
  ret (mkState (ticket state) cust_doc tech_doc (llm_reason state)).

(** ** The graph (graph.py): load_customer, compute_proximity, assign *)

Definition dispatch (tk : doc) : M DispatchState :=
  s1 <- load_customer_agent (mkState tk None None None) ;;
  s2 <- compute_proximity_agent s1 ;;
  assign_agent s2.

(** ** [complete_assignment] (main.py): releasing a technician *)

Inductive release_result : Type :=
  | Noop                       (* {"status": "noop", ...} *)
  | Released (closed : nat).   (* {"status": "success", ...}, modified_count *)

Definition ongoing (technician_id : Z) : query :=
  All [Is "tech_id" (PNum (inject_Z technician_id));
       IsNot "status" (PStr "completed")].

Definition complete_assignment (technician_id : Z) : M release_result :=
  d <- read_db ;;
  let by_id := All [Is "id" (PNum (inject_Z technician_id))] in
  match coll_find_one by_id (technicians d) with
  | None => raise (HTTPException 404 "Technician not found")
  | Some technician =>
      if doc_falsy (Some technician)
      then raise (HTTPException 404 "Technician not found")
      else if truthy (default (PBool true) (technician !! "is_free"))
      then ret Noop
      else
        _ <- write_db (on_technicians
               (coll_update_one by_id
                  [("is_free"%string, PBool true);
                   ("assigned_customer"%string, PNone);
                   ("availability_status"%string, PStr "available")])) ;;
        d' <- read_db ;;
        let n := length (coll_find (ongoing technician_id) (assignments d')) in
        _ <- write_db (on_assignments
               (coll_update_many (ongoing technician_id) completed)) ;;
        ret (Released n)
  end.

(** ** The ranker, technician by technician *)

(** A technician document with the two fields the loop writes. *)
Definition marked (tech : doc) (d : option Q) (tag : string) : doc :=
  <["distance_method" := PStr tag]>
    (<["distance_km" := of_option (PNum <$> d)]> tech).

Definition unresolved (tech : doc) : doc := marked tech None "Failed".

(** What the loop leaves in a document: the technician with its two marks. *)
Definition annotation (tech tech' : doc) : Prop :=
  exists d tag, tech' = marked tech d tag.

(** The two coordinates read by the loop body, or the exception that sends
    it to its handler. *)
Definition read_coords (customer : option doc) (tech : doc)
    : result (coord * coord) :=
  c <~ deref customer AttributeError ;;
  if negb (forallb truthy [get c "latitude"; get c "longitude";
                           get tech "latitude"; get tech "longitude"])
  then Raise (ValueError "Missing coordinates")
  else
    clat <~ (v <~ field c "latitude" ;; py_float v) ;;
    clon <~ (v <~ field c "longitude" ;; py_float v) ;;
    tlat <~ (v <~ field tech "latitude" ;; py_float v) ;;
    tlon <~ (v <~ field tech "longitude" ;; py_float v) ;;
    Ok ((clat, clon), (tlat, tlon)).

(** A coordinate that is present, numeric and equal to zero. *)
Definition zero_at (d : doc) (k : string) : Prop :=
  exists q, d !! k = Some (PNum q) /\ (q == 0)%Q.

(** ** The arbiter, check by check *)

(** The object parsed from the answer of the model service, or the
    exception at the first check that fails: no answer, a status other than
    200 or an empty body, a body or a content that is not JSON. *)
Definition model_reply (t : nat) (payload : pyval) : result pyval :=
  match groq_chat w t payload with
  | None => Raise RequestException
  | Some res =>
      if negb (status_code res =? 200) || blank (text res)
      then Raise (ValueError "LLM returned empty or error response")
      else
        body <~ res_json res ;;
        a <~ getitem body "choices" ;;
        b <~ getitem0 a ;;
        c <~ getitem b "message" ;;
        content <~ getitem c "content" ;;
        loads content
  end.

(** The id of the reply names no entry of the shortlist. *)
Definition names_nobody (top3 : list doc) (d : list (string * pyval)) : Prop :=
  forall t tid, In t top3 -> t !! "technician_id" = Some tid ->
                py_eq tid (default PNone (assoc "id" d)) = false.

(** ** The fallback chain, provider by provider *)

(** What each provider yields when asked: the kilometres before rounding,
    or nothing when its step fails. *)
Definition km_in (extract : pyval -> result pyval) (res : response) : option Q :=
  match (data <~ res_json res ;; m <~ extract data ;; div1000 m) with
  | Ok km => Some km
  | Raise _ => None
  end.

Definition primary (t : nat) (a b : coord) : option Q :=
  match ors_directions w t a b with
  | Some res => if status_code res =? 200 then km_in ors_meters res else None
  | None => None
  end.

Definition secondary (t : nat) (a b : coord) : option Q :=
  match osrm_route w t a b with
  | Some res => if status_code res =? 200 then km_in osrm_meters res else None
  | None => None
  end.

Definition geometric (a b : coord) : option Q := geodesic_km w a b.

(** The chain as section 4.1 of the specification words it: the steps in
    order, each one tried only when the one before it failed. *)
Definition resolve_chain (a b : coord) (p1 p2 p3 : option Q)
    : option Q * string * list call :=
  match p1, p2, p3 with
  | Some km, _, _ =>
      (Some (round2 km), "ORS"%string, [CallORS a b])
  | None, Some km, _ =>
      (Some (round2 km), "OSRM"%string, [CallORS a b; CallOSRM a b])
  | None, None, Some km =>
      (Some (round2 km), "Geopy"%string,
       [CallORS a b; CallOSRM a b; CallGeopy a b])
  | None, None, None =>
      (None, "Failed"%string, [CallORS a b; CallOSRM a b; CallGeopy a b])
  end.

Definition logged (e : env) (made : list call) : env :=
  mkEnv (db e) (calls e ++ made).

End Program.


(** ** The geometric step and the latitude

    [geopy.distance.geodesic] is not code of this repository. It builds a
    [Point] from each pair; geopy 2 raises [ValueError] there when the
    latitude lies outside [-90, 90], wraps any longitude into
    [-180, 180], and its geodesic computation always converges. *)
Definition in_range (c : coord) : bool :=
  Qle_bool (-90) c.1 && Qle_bool c.1 90.

(** A world whose geometric step does what geopy does. *)
Definition geopy_contract (w : world) : Prop :=
  forall a b, is_Some (geodesic_km w a b) <->
              in_range a = true /\ in_range b = true.

(** Section 4.1 and the invariant of section 6 as the specification words
    them: every pair of numbers resolves to a distance. *)
Definition resolves_every_pair : Prop :=
  forall w : world, geopy_contract w ->
  forall (a b : coord) (e : env),
    exists km tag, fst (compute_distance w a b e) = Ok (Some km, tag).


(** ** Order of a shortlist *)

Definition ascending {A} (key : A -> Q) : list A -> Prop :=
  StronglySorted (fun x y => (key x <= key y)%Q).

(** The elements whose key is [q], in the order of the list. *)
Definition keyed {A} (key : A -> Q) (q : Q) (l : list A) : list A :=
  List.filter (fun t => Qeq_bool (key t) q) l.

(** ** Assignments of a technician *)

(** The records with status ["assigned"] that reference technician [tid]. *)
Definition open_for (tid : pyval) (c : list doc) : list doc :=
  List.filter (fun d => field_is d "tech_id" tid &&
                        field_is d "status" (PStr "assigned")) c.

Definition is_ok {A} (r : result A) : bool :=
  match r with
  | Ok _ => true
  | Raise _ => false
  end.

Definition fst_ok {A} (r : result A) : option A :=
  match r with
  | Ok a => Some a
  | Raise _ => None
  end.

(** The database after a successful [assign_agent]. *)
Definition committed (tech_id cust_id tech_oid : pyval) (record : doc)
    (b : database) : database :=
  insert_assignment record
    (on_technicians
       (coll_update_one (All [Is "_id" tech_oid])
          [("is_free"%string, PBool false);
           ("availability_status"%string, PStr "assigned");
           ("assigned_customer"%string, cust_id)])
       (on_assignments
          (coll_update_many (stale tech_id cust_id) completed) b)).

Definition released_fields : list (string * pyval) :=
  [("is_free"%string, PBool true);
   ("assigned_customer"%string, PNone);
   ("availability_status"%string, PStr "available")].

(** The database after a [complete_assignment] that released someone. *)
Definition released (technician_id : Z) (b : database) : database :=
  on_assignments (coll_update_many (ongoing technician_id) completed)
    (on_technicians
       (coll_update_one (All [Is "id" (PNum (inject_Z technician_id))])
          released_fields) b).

(** Section 7 of the specification: a technician who is no longer free at
    commit time makes [assign] fail, and nothing is committed. *)
Definition conflict_is_surfaced : Prop :=
  forall (state : DispatchState) (e : env) (b tech_doc : doc),
    best state = Some b ->
    coll_find_one (All [Is "technician_id" (get b "technician_id")])
      (technicians (db e)) = Some tech_doc ->
    tech_doc !! "is_free" = Some (PBool false) ->
    is_ok (fst (assign_agent state e)) = false /\
    assignments (db (snd (assign_agent state e))) = assignments (db e).

(** ** The arbiter's fallback as section 4.3 of the specification words it

    A check fails: the service gives no usable reply, or the reply names
    nobody of the shortlist. *)
Definition a_check_fails (w : world) (t : nat) (top3 : list doc)
    (payload : pyval) : Prop :=
  (exists x, model_reply w t payload = Raise x) \/
  (exists d, model_reply w t payload = Ok (PDict d) /\ names_nobody top3 d).

Definition fallback_on_every_failed_check : Prop :=
  forall (w : world) (first : doc) (rest : list doc) (payload : pyval) (e : env),
    a_check_fails w (length (calls e)) (first :: rest) payload ->
    fst (choose w (first :: rest) first payload e) =
      Ok (first, PStr fallback_reason).

Definition is_none (v : pyval) : bool :=
  match v with
  | PNone => true
  | _ => false
  end.

(** ** What the loop of the ranker may leave *)

(** The tags of the steps of the fallback chain. *)
Definition distance_tags : list string :=
  ["ORS"%string; "OSRM"%string; "Geopy"%string].

(** Either the technician marked as failed, or the technician marked with
    a rounded distance and the tag of a step of the chain. *)
Definition loop_mark (t t' : doc) : Prop :=
  t' = unresolved t \/
  exists km tag,
    t' = marked t (Some (round2 km)) tag /\
    In tag distance_tags /\ is_Some (t !! "technician_id").

(** A call of the fallback chain, as opposed to the model service. *)
Definition distance_call (c : call) : Prop :=
  match c with
  | CallGroq _ => False
  | _ => True
  end.

(** ** [main.py]: recommending a technician

    The routing client and the model service as [main.py] uses them:
    [directions] is [openrouteservice.Client(...).directions(...)], asked
    for the [i]-th time in a request; [chat] is the decoded body of the
    completion request, made of the customer's id and the shortlist. [None]
    is a raised exception. *)

Record services : Type := mkServices {
  directions : nat -> pyval * pyval -> pyval * pyval -> option pyval;
  chat : Z -> list doc -> option pyval
}.

(** [compute_distance_ors]: kilometres, not rounded, or [None]. *)
Definition compute_distance_ors (s : services) (i : nat)
    (coord1 coord2 : pyval * pyval) : option Q * string :=
  match directions s i coord1 coord2 with
  | None => (None, "ORS Failed"%string)
  | Some route =>
      match (m <~ ors_meters route ;; div1000 m) with
      | Ok km => (Some km, "ORS"%string)
      | Raise _ => (None, "ORS Failed"%string)
      end
  end.

Definition is_digit (a : ascii) : bool :=
  let n := nat_of_ascii a in (48 <=? n)%nat && (n <=? 57)%nat.

(** [filter(str.isdigit, s)], as the values of the digits, on ASCII text *)
Fixpoint digits (s : string) : list Z :=
  match s with
  | EmptyString => []
  | String a r =>
      if is_digit a then Z.of_nat (nat_of_ascii a - 48) :: digits r
      else digits r
  end.

Definition decimal (ds : list Z) : Z :=
  fold_left (fun acc d => 10 * acc + d) ds 0.

(** [int(''.join(ds))]; the limit that recent Pythons put on the number
    of digits is not modelled. *)
Definition int_of_digits (ds : list Z) : result Z :=
  match ds with
  | [] => Raise (ValueError "invalid literal for int()")
  | _ => Ok (decimal ds)
  end.

(** The fields of an entry that the prompt reads. *)
Definition prompt_line (t : doc) : result unit :=
  _ <~ field t "name" ;;
  _ <~ field t "technician_id" ;;
  _ <~ field t "distance_km" ;;
  _ <~ field t "method" ;;
  Ok tt.

Fixpoint prompt_lines (top3 : list doc) : result unit :=
  match top3 with
  | [] => Ok tt
  | t :: r => _ <~ prompt_line t ;; prompt_lines r
  end.

(** The body of the [try] of [llm_recommend_best_technician]. *)
Definition model_pick (s : services) (customer_id : Z) (top3 : list doc)
    : result Z :=
  _ <~ prompt_lines top3 ;;
  result <~ deref (chat s customer_id top3) RequestException ;;
  a <~ getitem result "choices" ;;
  b <~ getitem0 a ;;
  c <~ getitem b "message" ;;
  content <~ getitem c "content" ;;
  text <~ match content with
          | PStr text => Ok text                (* [.strip()] *)
          | _ => Raise AttributeError
          end ;;
  int_of_digits (digits text).

Definition llm_recommend_best_technician (s : services) (customer_id : Z)
    (top3 : list doc) : result pyval :=
  match model_pick s customer_id top3 with
  | Ok n => Ok (PNum (inject_Z n))
  | Raise _ =>
      match top3 with
      | [] => Raise IndexError
      | first :: _ => field first "technician_id"
      end
  end.

Definition distance_entry (id name : pyval) (km : Q) (method : string) : doc :=
  list_to_map [("technician_id"%string, id);
               ("name"%string, name);
               ("distance_km"%string, PNum (round2 km));
               ("method"%string, PStr method)].

(** One turn of the loop of [recommend_technician]: the entry appended to
    [distances], if any. *)
Definition measure (s : services) (customer_coord : pyval * pyval) (i : nat)
    (tech : doc) : result (option doc) :=
  lon <~ field tech "longitude" ;;
  lat <~ field tech "latitude" ;;
  match compute_distance_ors s i customer_coord (lon, lat) with
  | (Some km, method) =>
      id <~ field tech "id" ;;
      name <~ field tech "name" ;;
      Ok (Some (distance_entry id name km method))
  | (None, _) =>
      _ <~ field tech "id" ;;
      Ok None
  end.

Fixpoint measure_all (s : services) (customer_coord : pyval * pyval)
    (i : nat) (techs : list doc) : result (list doc) :=
  match techs with
  | [] => Ok []
  | tech :: r =>
      o <~ measure s customer_coord i tech ;;
      rest <~ measure_all s customer_coord (S i) r ;;
      Ok (match o with
          | Some entry => entry :: rest
          | None => rest
          end)
  end.

(** [recommend_technician] up to [top3]: it only reads. *)
Definition ranked (s : services) (customer_id : Z) (b : database)
    : result (list doc) :=
  match coll_find_one (All [Is "id" (PNum (inject_Z customer_id))])
          (customers b) with
  | None => Raise (HTTPException 404 "Customer not found")
  | Some customer =>
      if bool_decide (customer = ∅)
      then Raise (HTTPException 404 "Customer not found")
      else
        clon <~ field customer "longitude" ;;
        clat <~ field customer "latitude" ;;
        match coll_find (All [Is "is_free" (PBool true)]) (technicians b) with
        | [] => Raise (HTTPException 404 "No available technicians")
        | free_techs =>
            distances <~ measure_all s (clon, clat) 0 free_techs ;;
            match distances with
            | [] => Raise (HTTPException 500 "No distances could be computed")
            | _ => Ok (firstn 3 (sorted distance_key distances))
            end
        end
  end.

(** [next(t for t in top3 if t["technician_id"] == best_id)]; [Ok None]
    is the generator running out. *)
Fixpoint next_by_id (best_id : pyval) (top3 : list doc) : result (option doc) :=
  match top3 with
  | [] => Ok None
  | t :: r =>
      tid <~ field t "technician_id" ;;
      if py_eq tid best_id then Ok (Some t) else next_by_id best_id r
  end.

Definition recommended_fields (customer_id : Z) : list (string * pyval) :=
  [("is_free"%string, PBool false);
   ("assigned_customer"%string, PNum (inject_Z customer_id));
   ("availability_status"%string, PStr "assigned")].

Definition recommendation_record (customer_id : Z) (tid km method : pyval)
    : doc :=
  list_to_map [("tech_id"%string, tid);
               ("customer_id"%string, PNum (inject_Z customer_id));
               ("distance_km"%string, km);
               ("method"%string, method);
               ("status"%string, PStr "assigned")].

(** How a request to [/recommend] ends: with its answer, with an exception
    that nothing catches, or with the [StopIteration] of [next]. *)
Inductive recommend_outcome : Type :=
  | Recommended (top3 : list doc) (best_id : pyval)
  | Uncaught (x : exn)
  | StopIteration.

Definition recommend_technician (s : services) (customer_id : Z) (e : env)
    : recommend_outcome * env :=
  match (top3 <~ ranked s customer_id (db e) ;;
         best_id <~ llm_recommend_best_technician s customer_id top3 ;;
         best <~ next_by_id best_id top3 ;;
         Ok (top3, best)) with
  | Raise x => (Uncaught x, e)
  | Ok (top3, None) => (StopIteration, e)
  | Ok (top3, Some best) =>
      match field best "technician_id" with
      | Raise x => (Uncaught x, e)
      | Ok tid =>
          let e1 := mkEnv (on_technicians
                             (coll_update_one (All [Is "id" tid])
                                (recommended_fields customer_id)) (db e))
                          (calls e) in
          match (km <~ field best "distance_km" ;;
                 method <~ field best "method" ;;
                 Ok (recommendation_record customer_id tid km method)) with
          | Raise x => (Uncaught x, e1)
          | Ok record =>
              let e2 := mkEnv (insert_assignment record (db e1)) (calls e) in
              match field best "name" with
              | Raise x => (Uncaught x, e2)
              | Ok _ => (Recommended top3 tid, e2)
              end
          end
      end
  end.

(** An entry of [distances]: made from a technician of [techs], by the
    routing service. *)
Definition measured_entry (techs : list doc) (t : doc) : Prop :=
  exists tech id name km,
    In tech techs /\ tech !! "id" = Some id /\ tech !! "name" = Some name /\
    t = distance_entry id name km "ORS".

(** The exceptions [recommend_technician] raises on purpose, and the
    [KeyError] of a document without a field it reads. *)
Definition recommend_error (x : exn) : Prop :=
  x = HTTPException 404 "Customer not found" \/
  x = HTTPException 404 "No available technicians" \/
  x = HTTPException 500 "No distances could be computed" \/
  exists k, x = KeyError k.

(** ** The stages of [assign_agent] *)

(** After the bulk update of the stale assignments. *)
Definition flipped (tech_id cust_id : pyval) (b : database) : database :=
  on_assignments (coll_update_many (stale tech_id cust_id) completed) b.

Definition assigned_fields (cust_id : pyval) : list (string * pyval) :=
  [("is_free"%string, PBool false);
   ("availability_status"%string, PStr "assigned");
   ("assigned_customer"%string, cust_id)].

(** After the update of the technician. *)
Definition taken (tech_id cust_id tech_oid : pyval) (b : database) : database :=
  on_technicians
    (coll_update_one (All [Is "_id" tech_oid]) (assigned_fields cust_id))
    (flipped tech_id cust_id b).

(** The document handed to [insert_one]. *)
Definition assignment_record (b c : doc) (coid toid cname tname : pyval)
    (reason : option pyval) : doc :=
  list_to_map
    [("customer_id"%string, get c "customer_id");
     ("tech_id"%string, get b "technician_id");
     ("customer_object_id"%string, coid);
     ("tech_object_id"%string, toid);
     ("customer_name"%string, cname);
     ("tech_name"%string, tname);
     ("distance_km"%string, get b "distance_km");
     ("distance_method"%string, get b "distance_method");
     ("llm_reason"%string, of_option reason);
     ("status"%string, PStr "assigned")].

(** ** What the writers may do to the stored assignments *)

(** [d'] is [d] with at most its status changed, and then to
    ["completed"]. *)
Definition closes (d d' : doc) : Prop :=
  (forall k, k <> "status"%string -> d' !! k = d !! k) /\
  (d' !! "status" = d !! "status" \/
   d' !! "status" = Some (PStr "completed")).

(** The collection grew at its end only, by [new], and the records it
    had were at most closed. *)
Definition log_extends (before after new : list doc) : Prop :=
  exists olds, after = olds ++ new /\ Forall2 closes before olds.

(** [d'] is [d] but for the fields [keys]. *)
Definition only_sets (keys : list string) (d d' : doc) : Prop :=
  forall k, ~ In k keys -> d' !! k = d !! k.

Definition availability_fields : list string :=
  ["is_free"%string; "availability_status"%string;
   "assigned_customer"%string].

(** ** The technicians the prompt of the ranker fails on *)

(** The free technicians whose id or name [json.dumps] cannot encode. *)
Definition unserialisable (e : env) (t : doc) : Prop :=
  In t (technicians (db e)) /\
  field_is t "is_free" (PBool true) = true /\
  exists i n,
    t !! "technician_id" = Some i /\ t !! "name" = Some n /\
    (json_serialisable i = false \/ json_serialisable n = false).

(** The free technicians that have an id and no name. *)
Definition nameless (e : env) (t : doc) : Prop :=
  In t (technicians (db e)) /\
  field_is t "is_free" (PBool true) = true /\
  is_Some (t !! "technician_id") /\ t !! "name" = None.

(** ** Test doubles

    Worlds, documents and databases on which the program is run below. *)

Module Scenario.

(** A stand-in for [geopy.distance.geodesic]: 111.319 km per degree, the
    length of one degree of the WGS-84 equator. *)
Definition flat_km (a b : coord) : option Q :=
  Some ((111319 # 1000) * (Qabs (a.1 - b.1) + Qabs (a.2 - b.2)))%Q.

(** Both routing providers and the model service are unreachable. *)
Definition unreachable : world :=
  mkWorld (fun _ _ _ => None) (fun _ _ _ => None) (fun _ _ => None)
          flat_km (fun _ => None) (fun _ => None).

(** The same, with the geometric step refusing a latitude outside
    [-90, 90], as geopy does. *)
Definition strict_km (a b : coord) : option Q :=
  if in_range a && in_range b then flat_km a b else None.

Definition strict : world :=
  mkWorld (fun _ _ _ => None) (fun _ _ _ => None) (fun _ _ => None)
          strict_km (fun _ => None) (fun _ => None).

(** [json.loads] on the two texts used by [talkative]. *)
Definition loads_table (reply : pyval) (s : string) : option pyval :=
  if String.eqb s "body" then
    Some (PDict [("choices"%string,
            PList [PDict [("message"%string,
              PDict [("content"%string, PStr "content")])]])])
  else if String.eqb s "content" then Some reply
  else None.

(** The routing providers are down; the model service answers [reply]. *)
Definition talkative (reply : pyval) : world :=
  mkWorld (fun _ _ _ => None) (fun _ _ _ => None)
          (fun _ _ => Some (mkResponse 200 "body"))
          flat_km (loads_table reply) (fun _ => None).

(** A technician, with the id under both names: [agents.py] reads
    [technician_id], [main.py] reads [id]. *)
Definition technician (i : Z) (lat lon : Q) (free : bool) : doc :=
  list_to_map
    [("_id"%string, PObjId (Z.to_nat i));
     ("technician_id"%string, PNum (inject_Z i));
     ("id"%string, PNum (inject_Z i));
     ("name"%string, PStr "tech");
     ("latitude"%string, PNum lat);
     ("longitude"%string, PNum lon);
     ("is_free"%string, PBool free)].

Definition client (i : Z) (lat lon : Q) : doc :=
  list_to_map
    [("_id"%string, PObjId (Z.to_nat (100 + i)));
     ("customer_id"%string, PNum (inject_Z i));
     ("name"%string, PStr "client");
     ("latitude"%string, PNum lat);
     ("longitude"%string, PNum lon)].

Definition assignment (tech cust : Z) (status : string) : doc :=
  list_to_map
    [("tech_id"%string, PNum (inject_Z tech));
     ("customer_id"%string, PNum (inject_Z cust));
     ("status"%string, PStr status)].

Definition ticket_for (i : Z) : doc := {[ "id"%string := PNum (inject_Z i) ]}.

Definition start (b : database) : env := mkEnv b [].

Definition far : doc := technician 1 0 1 true.
Definition near : doc := technician 2 0 (1 # 100) true.

(** Scenario A of the specification: customer 7 at (0, 0). *)
Definition scenario_a : database := mkDb [client 7 0 0] [far; near] [] 0.

(** The same map moved one degree north-east, away from latitude and
    longitude zero. *)
Definition far' : doc := technician 1 1 2 true.
Definition near' : doc := technician 2 1 (101 # 100) true.
Definition scenario_a' : database := mkDb [client 7 1 1] [far'; near'] [] 0.


(** Scenario B: technician 2 still has an open assignment (to customer
    5), customer 7 has one with technician 3, and technician 4 is busy
    with customer 9. *)
Definition scenario_b : database :=
  mkDb [client 7 1 1] [technician 2 1 (101 # 100) true]
       [assignment 2 5 "assigned"; assignment 3 7 "assigned";
        assignment 4 9 "assigned"] 0.

Definition chosen_in_b : DispatchState :=
  mkState (ticket_for 7) (Some (client 7 1 1))
          (Some (technician 2 1 (101 # 100) true))
          (Some (PStr "closest")).

(** The race of section 5: technician 2 was ranked while free, and is
    busy with customer 5 when the assignment is committed. *)
Definition scenario_race : database :=
  mkDb [client 7 1 1] [technician 2 1 (101 # 100) false]
       [assignment 2 5 "assigned"] 0.

(** A customer as [main.py] reads it, with the id under [id]. *)
Definition account (i : Z) (lat lon : Q) : doc :=
  <["id" := PNum (inject_Z i)]> (client i lat lon).

(** The answer of the routing client for a route of [meters]. *)
Definition route (meters : Q) : pyval :=
  PDict [("features"%string,
          PList [PDict [("properties"%string,
            PDict [("segments"%string,
              PList [PDict [("distance"%string, PNum meters)]])])]])].

(** The decoded completion whose content is [content]. *)
Definition completion (content : string) : pyval :=
  PDict [("choices"%string,
          PList [PDict [("message"%string,
            PDict [("content"%string, PStr content)])]])].

(** The [i]-th route asked is [1500 + 1000 i] metres long; the model
    service answers [content]. *)
Definition road (content : string) : services :=
  mkServices (fun i _ _ => Some (route (1500 + 1000 * inject_Z (Z.of_nat i))))
             (fun _ _ => Some (completion content)).

(** Two free technicians, 1 and 2, and customer 7; technician 2 has an
    earlier open assignment. *)
Definition scenario_main : database :=
  mkDb [account 7 1 1]
       [technician 1 1 2 true; technician 2 1 (101 # 100) true]
       [assignment 2 5 "assigned"] 0.

(** A free technician whose document has no [technician_id]. *)
Definition nameless_id : doc :=
  delete "technician_id" (technician 3 1 2 true).

(** A free technician whose [technician_id] is an [ObjectId]. *)
Definition keyed_by_oid : doc :=
  <["technician_id" := PObjId 1]> (technician 1 1 2 true).

Definition scenario_oid : database :=
  mkDb [client 7 1 1] [keyed_by_oid] [] 0.

End Scenario.

(** * Properties *)

(** ** Rounding to two decimals *)

Example round2_111 : round2 (1113195 # 10000) = (11132 # 100)%Q.
Proof. reflexivity. Qed.
Example round2_tie_even : round2 (125 # 1000) = (12 # 100)%Q.
Proof. reflexivity. Qed.
Example round2_tie_odd : round2 (135 # 1000) = (14 # 100)%Q.
Proof. reflexivity. Qed.
Example round2_neg : round2 (- (1234 # 1000)) = (- 123 # 100)%Q.
Proof. reflexivity. Qed.




(** ** The fallback chain of [compute_distance] *)

Section Chain.

Variable w : world.

Lemma logged_logged e l1 l2 : logged (logged e l1) l2 = logged e (l1 ++ l2).
Proof. unfold logged; cbn. now rewrite <- app_assoc. Qed.

Lemma geopy_step (a b : coord) (e : env) :
  try_geopy w a b e =
    (Ok (match geometric w a b with
         | Some km => (Some (round2 km), "Geopy"%string)
         | None => (None, "Failed"%string)
         end), logged e [CallGeopy a b]).
Proof.
  unfold try_geopy, try_except, bind, remote, geometric.
  now destruct (geodesic_km w a b).
Qed.

Lemma osrm_step (a b : coord) (e : env) :
  try_osrm w a b e =
    (Ok (match secondary w (length (calls e)) a b with
         | Some km => Some (Some (round2 km), "OSRM"%string)
         | None => None
         end), logged e [CallOSRM a b]).
Proof.
  unfold try_osrm, try_except, bind, remote, secondary, km_in.
  destruct (osrm_route w (length (calls e)) a b) as [res|]; [|reflexivity].
  destruct (status_code res =? 200); [|reflexivity].
  unfold lift, ret.
  destruct (res_json w res) as [data|]; cbn; [|reflexivity].
  destruct (osrm_meters data) as [m|]; cbn; [|reflexivity].
  now destruct (div1000 m).
Qed.

Lemma ors_step (a b : coord) (e : env) :
  try_ors w a b e =
    (match primary w (length (calls e)) a b with
     | Some km => Ok (Some (round2 km), "ORS"%string)
     | None => fst (try_ors w a b e)
     end, logged e [CallORS a b]) /\
  (primary w (length (calls e)) a b = None ->
   exists x, fst (try_ors w a b e) = Raise x).
Proof.
  unfold try_ors, bind, remote, primary, km_in.
  destruct (ors_directions w (length (calls e)) a b) as [res|];
    [|split; [reflexivity|eexists; reflexivity]].
  destruct (status_code res =? 200); cbn [negb];
    [|split; [reflexivity|eexists; reflexivity]].
  unfold lift, ret, raise.
  destruct (res_json w res) as [data|]; cbn;
    [|split; [reflexivity|eexists; reflexivity]].
  destruct (ors_meters data) as [m|]; cbn;
    [|split; [reflexivity|eexists; reflexivity]].
  destruct (div1000 m); cbn; split; try reflexivity;
    try discriminate; eexists; reflexivity.
Qed.

Lemma compute_distance_chain (a b : coord) (e : env) :
  let t := length (calls e) in
  let r := resolve_chain a b (primary w t a b) (secondary w (S t) a b) (geometric w a b) in
  compute_distance w a b e = (Ok r.1, logged e r.2).
Proof.
  cbv zeta. unfold compute_distance, try_except.
  destruct (ors_step a b e) as [Hrun Hfail]. rewrite Hrun.
  destruct (primary w (length (calls e)) a b) as [km|] eqn:P1; [reflexivity|].
  destruct (Hfail eq_refl) as [x ->].
  unfold bind. rewrite osrm_step.
  replace (length (calls (logged e [CallORS a b]))) with (S (length (calls e)))
    by (cbn; rewrite length_app; cbn; lia).
  destruct (secondary w (S (length (calls e))) a b) as [km|] eqn:P2.
  - unfold ret. now rewrite logged_logged.
  - rewrite geopy_step, !logged_logged.
    now destruct (geometric w a b).
Qed.

End Chain.

Lemma firstn_In {A} (n : nat) (l : list A) (x : A) :
  In x (firstn n l) -> In x l.
Proof.
  intros H. rewrite <- (firstn_skipn n l). apply in_or_app. now left.
Qed.

(** ** [sorted]: ascending, a permutation, stable *)

Section Sorting.

Context {A : Type} (key : A -> Q).

Lemma insert_by_perm (x : A) (l : list A) :
  Permutation (insert_by key x l) (x :: l).
Proof.
  induction l as [|y r IH]; cbn; [reflexivity|].
  destruct (Qle_bool (key x) (key y)); [reflexivity|].
  rewrite IH. apply perm_swap.
Qed.

Lemma sorted_perm (l : list A) : Permutation (sorted key l) l.
Proof.
  induction l as [|x r IH]; cbn; [reflexivity|].
  fold (sorted key r). rewrite insert_by_perm. now constructor.
Qed.

Lemma sorted_length (l : list A) : length (sorted key l) = length l.
Proof. apply Permutation_length, sorted_perm. Qed.

Lemma insert_by_ascending (x : A) (l : list A) :
  ascending key l -> ascending key (insert_by key x l).
Proof.
  unfold ascending. induction 1 as [|y r Hr IH Hy]; cbn.
  - repeat constructor.
  - destruct (Qle_bool (key x) (key y)) eqn:E.
    + apply Qle_bool_iff in E. constructor; [now constructor|].
      constructor; [exact E|].
      eapply Forall_impl; [exact Hy|].
      intros z Hz. cbn in Hz. eapply Qle_trans; eassumption.
    + constructor; [exact IH|].
      assert (Hlt : (key y <= key x)%Q).
      { apply Qlt_le_weak, Qnot_le_lt. intros H.
        apply Qle_bool_iff in H. congruence. }
      eapply Permutation_Forall; [symmetry; apply insert_by_perm|].
      now constructor.
Qed.

Lemma sorted_ascending (l : list A) : ascending key (sorted key l).
Proof.
  induction l as [|x r IH]; cbn; [constructor|].
  now apply insert_by_ascending.
Qed.

Lemma insert_by_keyed (q : Q) (x : A) (l : list A) :
  keyed key q (insert_by key x l) = keyed key q (x :: l).
Proof.
  unfold keyed. induction l as [|y r IH]; [reflexivity|].
  cbn [insert_by]. destruct (Qle_bool (key x) (key y)) eqn:E; [reflexivity|].
  cbn [List.filter] in *. rewrite IH.
  destruct (Qeq_bool (key x) q) eqn:Ex; [|reflexivity].
  destruct (Qeq_bool (key y) q) eqn:Ey; [|reflexivity].
  apply Qeq_bool_iff in Ex, Ey.
  assert (Hle : (key x <= key y)%Q) by (rewrite Ex, Ey; apply Qle_refl).
  apply Qle_bool_iff in Hle. congruence.
Qed.

(** Stability: among the elements of one key, the order of the input. *)
Lemma sorted_stable (q : Q) (l : list A) :
  keyed key q (sorted key l) = keyed key q l.
Proof.
  induction l as [|x r IH]; [reflexivity|].
  cbn [sorted foldr]. fold (sorted key r).
  rewrite insert_by_keyed. unfold keyed in *. cbn. now rewrite IH.
Qed.

End Sorting.

(** ** The loop of the ranker *)

Section Ranker.

Variable w : world.

Lemma marked_distance (tech : doc) (d : option Q) (tag : string) :
  marked tech d tag !! "distance_km" = Some (of_option (PNum <$> d)).
Proof.
  unfold marked. rewrite lookup_insert_ne by discriminate.
  apply lookup_insert_eq.
Qed.

Lemma marked_method (tech : doc) (d : option Q) (tag : string) :
  marked tech d tag !! "distance_method" = Some (PStr tag).
Proof. unfold marked. apply lookup_insert_eq. Qed.

Lemma marked_other (tech : doc) (d : option Q) (tag k : string) :
  k <> "distance_km"%string -> k <> "distance_method"%string ->
  marked tech d tag !! k = tech !! k.
Proof.
  intros H1 H2. unfold marked. now rewrite !lookup_insert_ne by congruence.
Qed.

Lemma resolved_marked (tech : doc) (d : option Q) (tag : string) :
  resolved (marked tech d tag) = bool_decide (is_Some d).
Proof.
  unfold resolved, get. rewrite marked_distance. now destruct d.
Qed.

Lemma distance_key_marked (tech : doc) (q : Q) (tag : string) :
  distance_key (marked tech (Some q) tag) = q.
Proof. unfold distance_key. now rewrite marked_distance. Qed.

(** One turn of the loop, as an equation: no exception leaves it, and the
    database is not touched. *)
Lemma annotate_eq (customer : option doc) (tech : doc) (e : env) :
  annotate w customer tech e =
    match read_coords w customer tech with
    | Raise _ => (Ok (unresolved tech), e)
    | Ok (a, b) =>
        let t := length (calls e) in
        let r := resolve_chain a b (primary w t a b) (secondary w (S t) a b)
                   (geometric w a b) in
        (Ok (match tech !! "technician_id" with
             | Some _ => marked tech r.1.1 r.1.2
             | None => unresolved tech
             end), logged e r.2)
    end.
Proof.
  unfold annotate, read_coords, try_except, bind, lift.
  destruct customer as [c|]; cbn [deref rbind]; [|reflexivity].
  destruct (negb _); [reflexivity|].
  destruct (v <~ field c "latitude" ;; py_float w v) as [clat|];
    cbn [rbind]; [|reflexivity].
  destruct (v <~ field c "longitude" ;; py_float w v) as [clon|];
    cbn [rbind]; [|reflexivity].
  destruct (v <~ field tech "latitude" ;; py_float w v) as [tlat|];
    cbn [rbind]; [|reflexivity].
  destruct (v <~ field tech "longitude" ;; py_float w v) as [tlon|];
    cbn [rbind]; [|reflexivity].
  rewrite compute_distance_chain. cbv zeta.
  set (r := resolve_chain _ _ _ _ _). destruct r as [[d tag] made].
  cbn [fst snd]. unfold field.
  rewrite !lookup_insert_ne by discriminate.
  now destruct (tech !! "technician_id").
Qed.

Lemma annotate_total (customer : option doc) (tech : doc) (e : env) :
  exists tech' e',
    annotate w customer tech e = (Ok tech', e') /\
    db e' = db e /\ annotation tech tech'.
Proof.
  rewrite annotate_eq.
  destruct (read_coords w customer tech) as [[a b]|x].
  - cbv zeta. do 2 eexists. split; [reflexivity|]. split; [reflexivity|].
    destruct (tech !! "technician_id"); eexists _, _; reflexivity.
  - exists (unresolved tech), e. repeat split. eexists _, _; reflexivity.
Qed.

Lemma for_each_annotate (customer : option doc) (l : list doc) (e : env) :
  exists annotated e',
    for_each (annotate w customer) l e = (Ok annotated, e') /\
    db e' = db e /\ Forall2 annotation l annotated.
Proof.
  revert e. induction l as [|t r IH]; intros e; cbn [for_each].
  - exists [], e. repeat split. constructor.
  - destruct (annotate_total customer t e) as (t' & e1 & Ht & Hdb1 & Hann).
    destruct (IH e1) as (ys & e2 & Hr & Hdb2 & Hall).
    exists (t' :: ys), e2. unfold bind. rewrite Ht, Hr.
    repeat split; [congruence|]. now constructor.
Qed.

Lemma annotation_key (tech tech' : doc) :
  annotation tech tech' -> resolved tech' = true ->
  tech' !! "distance_km" = Some (PNum (distance_key tech')).
Proof.
  intros (d & tag & ->) Hres. rewrite resolved_marked in Hres.
  destruct d as [q|]; [|discriminate].
  now rewrite distance_key_marked, marked_distance.
Qed.

Lemma annotation_of_member (l annotated : list doc) (t' : doc) :
  Forall2 annotation l annotated -> In t' annotated ->
  exists t, In t l /\ annotation t t'.
Proof.
  induction 1 as [|t y r ys Hty _ IH]; cbn; [tauto|].
  intros [<-|Hin]; [now exists t; auto|].
  destruct (IH Hin) as (t0 & ? & ?). exists t0; auto.
Qed.

Lemma rank_resolved (annotated : list doc) (t : doc) :
  In t (rank annotated) -> In t annotated /\ resolved t = true.
Proof.
  unfold rank. intros H. apply firstn_In in H.
  apply (Permutation_in _ (sorted_perm distance_key _)) in H.
  now apply filter_In in H.
Qed.

Lemma for_each_In {A B} (f : A -> M B) (l : list A) (x : A) (y : B) :
  (forall e0, f x e0 = (Ok y, e0)) ->
  forall e ys e', for_each f l e = (Ok ys, e') -> In x l -> In y ys.
Proof.
  intros Hf. induction l as [|a r IH]; intros e ys e' Hrun Hin; [easy|].
  cbn [for_each] in Hrun. unfold bind in Hrun.
  destruct (f a e) as [[b|?] e1] eqn:Ha; [|discriminate].
  destruct (for_each f r e1) as [[zs|?] e2] eqn:Hr; [|discriminate].
  injection Hrun as <- <-.
  destruct Hin as [->|Hin].
  - rewrite Hf in Ha. injection Ha as <- _. now left.
  - right. eapply IH; eassumption.
Qed.

Lemma zero_is_falsy (d : doc) (k : string) :
  zero_at d k -> truthy (get d k) = false.
Proof.
  intros (q & Hq & Hz). unfold get. rewrite Hq. cbn.
  apply Qeq_bool_iff in Hz. now rewrite Hz.
Qed.

Lemma read_coords_zero (customer tech : doc) :
  zero_at customer "latitude" \/ zero_at customer "longitude" \/
  zero_at tech "latitude" \/ zero_at tech "longitude" ->
  read_coords w (Some customer) tech = Raise (ValueError "Missing coordinates").
Proof.
  intros H. unfold read_coords. cbn [deref rbind forallb].
  destruct H as [H|[H|[H|H]]]; rewrite (zero_is_falsy _ _ H);
    now rewrite ?andb_false_r.
Qed.





End Ranker.

(** ** The arbiter *)

Section Arbiter.

Variable w : world.

Lemma choose_eq (top3 : list doc) (first : doc) (payload : pyval) (e : env) :
  choose w top3 first payload e =
    (Ok (match (result <~ model_reply w (length (calls e)) payload ;;
                chosen <~ next_match result top3 first ;;
                reason <~ dict_get result "reason" (PStr default_reason) ;;
                Ok (chosen, reason)) with
         | Ok cr => cr
         | Raise _ => (first, PStr fallback_reason)
         end), logged e [CallGroq payload]).
Proof.
  unfold choose, model_reply, try_except, bind, remote, lift, ret, raise.
  destruct (groq_chat w (length (calls e)) payload) as [res|]; [|reflexivity].
  destruct (negb (status_code res =? 200) || blank (text res)); [reflexivity|].
  destruct (res_json w res) as [body|]; cbn [rbind]; [|reflexivity].
  destruct (a <~ getitem body "choices" ;; b <~ getitem0 a ;;
            c <~ getitem b "message" ;; getitem c "content") as [content|x] eqn:E.
  - replace (a <~ getitem body "choices" ;; b <~ getitem0 a ;;
             c <~ getitem b "message" ;; content0 <~ getitem c "content" ;;
             loads w content0) with (loads w content).
    + destruct (loads w content) as [result|]; cbn [rbind]; [|reflexivity].
      destruct (next_match result top3 first); cbn [rbind]; [|reflexivity].
      now destruct (dict_get result "reason" (PStr default_reason)).
    + destruct (getitem body "choices") as [a|]; [|discriminate]; cbn in *.
      destruct (getitem0 a) as [b|]; [|discriminate]; cbn in *.
      destruct (getitem b "message") as [c|]; [|discriminate]; cbn in *.
      now rewrite E.
  - replace (a <~ getitem body "choices" ;; b <~ getitem0 a ;;
             c <~ getitem b "message" ;; content0 <~ getitem c "content" ;;
             loads w content0) with (@Raise pyval x); [reflexivity|].
    destruct (getitem body "choices") as [a|]; [|now inversion E]; cbn in *.
    destruct (getitem0 a) as [b|]; [|now inversion E]; cbn in *.
    destruct (getitem b "message") as [c|]; [|now inversion E]; cbn in *.
    now rewrite E.
Qed.

Lemma next_match_nobody (d : list (string * pyval)) (l : list doc) (dflt : doc) :
  Forall (fun t => is_Some (t !! "technician_id")) l ->
  names_nobody l d ->
  next_match (PDict d) l dflt = Ok dflt.
Proof.
  induction 1 as [|t r [tid Hid] _ IH]; intros Hno; [reflexivity|].
  cbn [next_match]. unfold field. rewrite Hid. cbn [rbind dict_get].
  rewrite (Hno t tid (or_introl eq_refl) Hid).
  apply IH. intros t' tid' Hin. apply Hno. now right.
Qed.

End Arbiter.

(** ** BSON equality and the collections *)

Lemma bson_eq_refl : forall v : pyval, bson_eq v v = true.
Proof.
  fix IH 1. intros [ |b|q|s|n|l|d]; cbn.
  - reflexivity.
  - now destruct b.
  - apply Qeq_bool_iff. reflexivity.
  - apply String.eqb_refl.
  - apply Nat.eqb_refl.
  - induction l as [|x xs IHl]; [reflexivity|].
    now rewrite (IH x), IHl.
  - induction d as [|[k x] xs IHd]; [reflexivity|].
    now rewrite String.eqb_refl, (IH x), IHd.
Qed.

Lemma field_is_same (d : doc) (k : string) (v : pyval) :
  d !! k = Some v -> field_is d k v = true.
Proof.
  intros H. unfold field_is. rewrite H.
  destruct v; try apply bson_eq_refl.
  now rewrite bson_eq_refl.
Qed.

Lemma set_completed_status (d : doc) :
  set_fields completed d !! "status" = Some (PStr "completed").
Proof. cbn. apply lookup_insert_eq. Qed.

Lemma open_for_app (tid : pyval) (c1 c2 : list doc) :
  open_for tid (c1 ++ c2) = open_for tid c1 ++ open_for tid c2.
Proof. apply List.filter_app. Qed.

(** After the bulk update no record of the technician is left open. *)
Lemma open_for_stale (tid cid : pyval) (c : list doc) :
  open_for tid (coll_update_many (stale tid cid) completed c) = [].
Proof.
  unfold open_for, coll_update_many.
  induction c as [|d r IH]; [reflexivity|]. cbn [List.map List.filter].
  destruct (matches (stale tid cid) d) eqn:Hm.
  - unfold field_is at 2. rewrite set_completed_status. cbn [bson_eq].
    rewrite andb_false_r. exact IH.
  - cbn in Hm. rewrite orb_false_r in Hm.
    apply orb_false_elim in Hm. destruct Hm as [Hm _].
    rewrite andb_true_r in Hm. now rewrite Hm.
Qed.

Lemma find_one_update_one (q : query) (upd : list (string * pyval))
    (c : list doc) (d : doc) :
  coll_find_one q c = Some d ->
  matches q (set_fields upd d) = true ->
  coll_find_one q (coll_update_one q upd c) = Some (set_fields upd d).
Proof.
  unfold coll_find_one. induction c as [|a r IH]; [discriminate|].
  cbn [find coll_update_one]. destruct (matches q a) eqn:Ha.
  - intros [= ->] Hd. cbn [find]. now rewrite Hd.
  - intros Hfind Hd. cbn [find]. rewrite Ha. now apply IH.
Qed.

Lemma released_is_free (d : doc) :
  set_fields released_fields d !! "is_free" = Some (PBool true).
Proof.
  cbn. rewrite !lookup_insert_ne by discriminate. apply lookup_insert_eq.
Qed.

Lemma released_keeps_id (d : doc) :
  set_fields released_fields d !! "id" = d !! "id".
Proof. cbn. now rewrite !lookup_insert_ne by discriminate. Qed.

Lemma complete_assignment_eq (technician_id : Z) (e : env) :
  complete_assignment technician_id e =
    match coll_find_one (All [Is "id" (PNum (inject_Z technician_id))])
            (technicians (db e)) with
    | None => (Raise (HTTPException 404 "Technician not found"), e)
    | Some technician =>
        if bool_decide (technician = ∅)
        then (Raise (HTTPException 404 "Technician not found"), e)
        else if truthy (default (PBool true) (technician !! "is_free"))
        then (Ok Noop, e)
        else (Ok (Released
                    (length (coll_find (ongoing technician_id)
                               (assignments (db e))))),
              mkEnv (released technician_id (db e)) (calls e))
    end.
Proof.
  unfold complete_assignment, bind, read_db, write_db, ret, raise, doc_falsy.
  destruct (coll_find_one _ _) as [technician|]; [|reflexivity].
  destruct (bool_decide (technician = ∅)); [reflexivity|].
  now destruct (truthy _).
Qed.

(** ** The coordinator *)

(** A successful [assign_agent], as an equation. *)
Lemma assign_agent_commits (state : DispatchState) (e : env) :
  is_ok (fst (assign_agent state e)) = true ->
  exists b c tech_doc cust_doc tech_oid record,
    best state = Some b /\ customer state = Some c /\
    coll_find_one (All [Is "technician_id" (get b "technician_id")])
      (technicians (db e)) = Some tech_doc /\
    coll_find_one (All [Is "customer_id" (get c "customer_id")])
      (customers (db e)) = Some cust_doc /\
    tech_doc !! "_id" = Some tech_oid /\
    record !! "tech_id" = Some (get b "technician_id") /\
    record !! "customer_id" = Some (get c "customer_id") /\
    record !! "status" = Some (PStr "assigned") /\
    record !! "distance_method" = Some (get b "distance_method") /\
    assign_agent state e =
      (Ok (mkState (ticket state) (Some cust_doc) (Some tech_doc)
             (llm_reason state)),
       mkEnv (committed (get b "technician_id") (get c "customer_id")
                tech_oid record (db e)) (calls e)).
Proof.
  unfold assign_agent, bind, lift, read_db, write_db, ret.
  destruct (best state) as [b|] eqn:Hb; cbn [deref]; [|discriminate].
  destruct (customer state) as [c|] eqn:Hc; cbn [deref]; [|discriminate].
  cbn [db calls].
  destruct (coll_find_one (All [Is "technician_id" (get b "technician_id")])
              (technicians (db e))) as [tech_doc|] eqn:Ht;
    cbn [deref rbind]; [|discriminate].
  unfold field.
  destruct (tech_doc !! "_id") as [tech_oid|] eqn:Hoid; [|discriminate].
  destruct (coll_find_one (All [Is "customer_id" (get c "customer_id")])
              (customers (db e))) as [cust_doc|] eqn:Hcd;
    cbn [deref rbind]; [|discriminate].
  destruct (cust_doc !! "_id") as [coid|]; cbn [rbind]; [|discriminate].
  destruct (cust_doc !! "name") as [cname|]; cbn [rbind]; [|discriminate].
  destruct (tech_doc !! "name") as [tname|]; cbn [rbind]; [|discriminate].
  intros _. eexists b, c, tech_doc, cust_doc, tech_oid, _.
  repeat split; [idtac .. | reflexivity]; first [eassumption | reflexivity].
Qed.



Lemma strict_obeys_geopy : geopy_contract Scenario.strict.
Proof.
  intros a b. cbn [geodesic_km Scenario.strict]. unfold Scenario.strict_km.
  destruct (in_range a), (in_range b); cbn [andb]; split.
  1: intros _; split; reflexivity.
  1: intros _; unfold Scenario.flat_km; eexists; reflexivity.
  all: intros [Ha Hb]; discriminate.
Qed.

(** C5, as stated, fails: with both routing providers down, a pair of
    finite numbers whose first latitude is 91 comes back as
    [(None, "Failed")], because the geometric step refuses the latitude. *)
Lemma resolves_every_pair_fails : ~ resolves_every_pair.
Proof.
  intros claim.
  destruct (claim Scenario.strict strict_obeys_geopy (91, 10)%Q (45, 10)%Q
              (Scenario.start Scenario.scenario_a)) as (km & tag & Hrun).
  vm_compute in Hrun. discriminate.
Qed.

(** C5, amended. [compute_distance] never raises, and returns
    [(None, "Failed")] exactly when all three steps fail; a pair the
    geometric step accepts always gets a distance, whatever the routing
    providers do. With geopy as the geometric step, every pair whose two
    latitudes lie in [-90, 90] gets a distance, and [(None, "Failed")] is
    returned only for a pair with a latitude outside that range, after both
    routing providers failed. *)
Theorem resolve_total_in_range (w : world) (a b : coord) (e : env) :
  let run := fst (compute_distance w a b e) in
  (exists d tag, run = Ok (d, tag)) /\
  (forall tag, run = Ok (None, tag) <->
     tag = "Failed"%string /\
     primary w (length (calls e)) a b = None /\
     secondary w (S (length (calls e))) a b = None /\
     geometric w a b = None) /\
  (is_Some (geometric w a b) ->
     exists km tag, run = Ok (Some km, tag) /\ tag <> "Failed"%string) /\
  (geopy_contract w ->
     (in_range a = true -> in_range b = true ->
        exists km tag, run = Ok (Some km, tag) /\ tag <> "Failed"%string) /\
     (forall tag, run = Ok (None, tag) ->
        in_range a = false \/ in_range b = false)).
Proof.
  cbv zeta. rewrite compute_distance_chain. cbn [fst].
  unfold geometric, resolve_chain, geopy_contract.
  destruct (primary w (length (calls e)) a b) as [k1|];
    [|destruct (secondary w (S (length (calls e))) a b) as [k2|];
      [|destruct (geodesic_km w a b) as [k3|] eqn:Hgeo]]; cbn [fst].
  1-3: split; [eauto|]; split;
         [intros tag; split; [intros [=]|intros (_ & H1 & H2 & H3);
                                          discriminate]|];
       split; [intros _; do 2 eexists; split; [reflexivity|discriminate]|];
       intros Hgeopy; split;
         [intros _ _; do 2 eexists; split; [reflexivity|discriminate]
         |intros tag [=]].
  split; [eauto|]. split.
  { intros tag. split; [intros [= <-]; auto|].
    intros (-> & _). reflexivity. }
  split; [intros [? [=]]|].
  intros Hgeopy. specialize (Hgeopy a b). rewrite Hgeo in Hgeopy. split.
  - intros Ha Hb. destruct (proj2 Hgeopy (conj Ha Hb)) as [? [=]].
  - intros tag _. destruct (in_range a) eqn:Ha; [|now left].
    destruct (in_range b) eqn:Hb; [|now right].
    destruct (proj2 Hgeopy (conj eq_refl eq_refl)) as [? [=]].
Qed.

Lemma resolve_total_in_range_witness :
  exists km tag,
    fst (compute_distance Scenario.strict (45, 10)%Q (46, 10)%Q
           (Scenario.start Scenario.scenario_a)) = Ok (Some km, tag) /\
    tag <> "Failed"%string.
Proof.
  refine (proj1 (proj2 (proj2 (proj2
            (resolve_total_in_range Scenario.strict (45, 10)%Q (46, 10)%Q
               (Scenario.start Scenario.scenario_a))))
            strict_obeys_geopy) eq_refl eq_refl).
Defined.

(** C4. For every customer and list of technicians the loop of the ranker
    ends, and the shortlist made from what it leaves is in ascending order
    of distance, keeps technicians of equal distance in the order of the
    input (it is the prefix of a stable sort), and has at most 3 entries
    and at most as many as there are technicians with a resolved
    distance. *)
Theorem shortlist_sorted_stable_bounded (w : world) (customer : option doc)
    (candidates : list doc) (e : env) :
  exists annotated e',
    for_each (annotate w customer) candidates e = (Ok annotated, e') /\
    length annotated = length candidates /\
    let usable := List.filter resolved annotated in
    let top3 := rank annotated in
    ascending distance_key top3 /\
    (forall t, In t top3 ->
       In t usable /\ t !! "distance_km" = Some (PNum (distance_key t))) /\
    top3 = firstn 3 (sorted distance_key usable) /\
    ascending distance_key (sorted distance_key usable) /\
    Permutation (sorted distance_key usable) usable /\
    (forall q, keyed distance_key q (sorted distance_key usable) =
               keyed distance_key q usable) /\
    (length top3 <= 3)%nat /\
    (length top3 <= length usable)%nat.
Proof.
  destruct (for_each_annotate w customer candidates e)
    as (annotated & e' & Hrun & _ & Hall).
  exists annotated, e'. split; [exact Hrun|].
  split; [symmetry; eapply Forall2_length; exact Hall|].
  cbv zeta. unfold rank.
  set (usable := List.filter resolved annotated).
  pose proof (sorted_ascending distance_key usable) as Hasc.
  repeat split.
  - unfold ascending in *.
    rewrite <- (firstn_skipn 3 (sorted distance_key usable)) in Hasc.
    now apply StronglySorted_app_1_l in Hasc.
  - apply firstn_In in H.
    now apply (Permutation_in _ (sorted_perm distance_key _)) in H.
  - apply firstn_In in H.
    apply (Permutation_in _ (sorted_perm distance_key _)) in H.
    apply filter_In in H. destruct H as [Hin Hres].
    destruct (annotation_of_member _ _ _ Hall Hin) as (t0 & _ & Hann).
    eapply annotation_key; eassumption.
  - exact Hasc.
  - apply sorted_perm.
  - intros q. apply sorted_stable.
  - apply firstn_le_length.
  - rewrite length_firstn, sorted_length. lia.
Qed.

(** C3, as stated, fails: when the reply is well formed but names nobody of
    the shortlist, the first entry is chosen with the reason given by the
    model, not with the fallback justification. *)
Lemma fallback_on_every_failed_check_fails : ~ fallback_on_every_failed_check.
Proof.
  intros claim.
  pose (reply := PDict [("id"%string, PNum 99);
                        ("reason"%string, PStr "nearest by road")]).
  specialize (claim (Scenario.talkative reply) Scenario.near' [] (PList [])
                (Scenario.start Scenario.scenario_a')).
  assert (Hfails : a_check_fails (Scenario.talkative reply) 0
                     [Scenario.near'] (PList [])).
  { right. eexists. split; [reflexivity|].
    intros t tid [<-|[]] Hid. vm_compute in Hid.
    injection Hid as <-. reflexivity. }
  specialize (claim Hfails).
  apply (f_equal (fun r => match r with
                           | Ok (_, PStr s) => String.eqb s fallback_reason
                           | _ => true
                           end)) in claim.
  vm_compute in claim. discriminate.
Qed.

(** C3, amended. The arbiter never raises. When the service gives no
    usable reply (no answer, a status other than 200, an empty body, a body
    or content that is not JSON, or JSON that is not an object) it returns
    the first entry of the shortlist with the fixed fallback justification.
    When the reply is an object whose id names nobody of the shortlist, it
    returns the first entry too, but with the reason of the reply, or
    ["Chosen based on proximity"] when the reply has none. *)
Theorem arbiter_fallback (w : world) (top3 : list doc) (first : doc)
    (payload : pyval) (e : env) :
  let reply := model_reply w (length (calls e)) payload in
  let after := logged e [CallGroq payload] in
  (exists chosen reason,
     choose w top3 first payload e = (Ok (chosen, reason), after)) /\
  ((forall d, reply <> Ok (PDict d)) ->
   choose w top3 first payload e = (Ok (first, PStr fallback_reason), after)) /\
  (forall d,
     reply = Ok (PDict d) ->
     Forall (fun t => is_Some (t !! "technician_id")) top3 ->
     names_nobody top3 d ->
     choose w top3 first payload e =
       (Ok (first, default (PStr default_reason) (assoc "reason" d)), after)).
Proof.
  cbv zeta. rewrite choose_eq.
  destruct (model_reply w (length (calls e)) payload) as [result|x];
    cbn [rbind].
  - split; [|split].
    + destruct (_ <~ next_match result top3 first ;; _) as [[c r]|];
        eexists _, _; reflexivity.
    + intros Hnot. destruct result; try (now destruct (next_match _ top3 first)).
      now destruct (Hnot d).
    + intros d [= ->] Hids Hno.
      now rewrite (next_match_nobody d top3 first Hids Hno).
  - split; [eexists _, _; reflexivity|]. split; [reflexivity|]. discriminate.
Qed.

Lemma arbiter_fallback_witness :
  choose Scenario.unreachable [Scenario.near'] Scenario.near' (PList [])
         (Scenario.start Scenario.scenario_a') =
    (Ok (Scenario.near', PStr fallback_reason),
     logged (Scenario.start Scenario.scenario_a') [CallGroq (PList [])]).
Proof.
  apply (proj1 (proj2 (arbiter_fallback Scenario.unreachable [Scenario.near']
                         Scenario.near' (PList [])
                         (Scenario.start Scenario.scenario_a')))).
  intros d. vm_compute. discriminate.
Defined.

(** C10. A coordinate of the customer or of the technician that is present,
    numeric and equal to zero is taken for a missing one: the loop marks the
    technician with distance [None] and method ["Failed"] without asking any
    provider, and the technician is not in the shortlist. *)
Theorem zero_coordinate_is_missing (w : world) (customer tech : doc)
    (zero : zero_at customer "latitude" \/ zero_at customer "longitude" \/
            zero_at tech "latitude" \/ zero_at tech "longitude") :
  (forall e, annotate w (Some customer) tech e = (Ok (unresolved tech), e)) /\
  unresolved tech !! "distance_km" = Some PNone /\
  unresolved tech !! "distance_method" = Some (PStr "Failed") /\
  (forall candidates e annotated e',
     In tech candidates ->
     for_each (annotate w (Some customer)) candidates e = (Ok annotated, e') ->
     In (unresolved tech) annotated /\ ~ In (unresolved tech) (rank annotated)).
Proof.
  assert (Hloop : forall e,
            annotate w (Some customer) tech e = (Ok (unresolved tech), e)).
  { intros e. rewrite annotate_eq. now rewrite (read_coords_zero w _ _ zero). }
  split; [exact Hloop|].
  split; [apply marked_distance|]. split; [apply marked_method|].
  intros candidates e annotated e' Hin Hrun. split.
  - eapply for_each_In; eassumption.
  - intros Hmem. apply rank_resolved in Hmem. destruct Hmem as [_ Hres].
    unfold unresolved in Hres. rewrite resolved_marked in Hres.
    discriminate.
Qed.

Lemma zero_coordinate_is_missing_witness :
  annotate Scenario.unreachable (Some (Scenario.client 7 0 0)) Scenario.near
           (Scenario.start Scenario.scenario_a) =
    (Ok (unresolved Scenario.near), Scenario.start Scenario.scenario_a).
Proof.
  apply (zero_coordinate_is_missing Scenario.unreachable
           (Scenario.client 7 0 0) Scenario.near).
  left. exists 0%Q. split; reflexivity.
Defined.



(** C7. When [assign_agent] succeeds, every earlier record with status
    ["assigned"] that references the chosen technician or the customer has
    been set to ["completed"], in place, before the new record is appended;
    the new record is then the only record with status ["assigned"] that
    references the technician. *)
Theorem assign_completes_then_inserts (state : DispatchState) (e : env)
    (b c : doc)
    (Hbest : best state = Some b) (Hcust : customer state = Some c)
    (Hok : is_ok (fst (assign_agent state e)) = true) :
  let tech_id := get b "technician_id" in
  let cust_id := get c "customer_id" in
  let before := assignments (db e) in
  let after := assignments (db (snd (assign_agent state e))) in
  exists record,
    after = coll_update_many (stale tech_id cust_id) completed before
              ++ [record] /\
    record !! "status" = Some (PStr "assigned") /\
    record !! "tech_id" = Some tech_id /\
    record !! "customer_id" = Some cust_id /\
    (forall old,
       In old before ->
       field_is old "status" (PStr "assigned") = true ->
       field_is old "tech_id" tech_id = true \/
       field_is old "customer_id" cust_id = true ->
       In (<["status" := PStr "completed"]> old) after) /\
    open_for tech_id after = [record].
Proof.
  cbv zeta.
  destruct (assign_agent_commits state e Hok)
    as (b' & c' & tech_doc & cust_doc & tech_oid & record
        & Hb' & Hc' & _ & _ & _ & Htid & Hcid & Hstatus & _ & Hrun).
  rewrite Hbest in Hb'. rewrite Hcust in Hc'.
  injection Hb' as <-. injection Hc' as <-.
  rewrite Hrun. cbn [snd db committed insert_assignment on_technicians
                     on_assignments assignments next_oid].
  set (fresh := PObjId _).
  exists (<["_id" := fresh]> record).
  assert (Hstatus' : (<["_id" := fresh]> record) !! "status"
                     = Some (PStr "assigned"))
    by now rewrite lookup_insert_ne.
  assert (Htid' : (<["_id" := fresh]> record) !! "tech_id"
                  = Some (get b "technician_id"))
    by now rewrite lookup_insert_ne.
  split; [reflexivity|]. split; [exact Hstatus'|]. split; [exact Htid'|].
  split; [now rewrite lookup_insert_ne|]. split.
  - intros old Hin Hassigned Hrefers. apply in_or_app. left.
    unfold coll_update_many.
    apply (in_map (fun d =>
                     if matches (stale (get b "technician_id")
                                   (get c "customer_id")) d
                     then set_fields completed d else d)) in Hin.
    replace (matches (stale (get b "technician_id") (get c "customer_id")) old)
      with true in Hin; [exact Hin|].
    cbn. rewrite Hassigned. now destruct Hrefers as [-> | ->];
      rewrite ?orb_true_r.
  - rewrite open_for_app, open_for_stale. cbn.
    now rewrite (field_is_same _ _ _ Htid'), (field_is_same _ _ _ Hstatus').
Qed.

Lemma assign_completes_then_inserts_witness :
  exists record,
    assignments (db (snd (assign_agent Scenario.chosen_in_b
                            (Scenario.start Scenario.scenario_b)))) =
      [ <["status" := PStr "completed"]> (Scenario.assignment 2 5 "assigned");
        <["status" := PStr "completed"]> (Scenario.assignment 3 7 "assigned");
        Scenario.assignment 4 9 "assigned";
        record ] /\
    open_for (PNum 2)
      (assignments (db (snd (assign_agent Scenario.chosen_in_b
                               (Scenario.start Scenario.scenario_b))))) =
      [record].
Proof.
  destruct (assign_completes_then_inserts Scenario.chosen_in_b
              (Scenario.start Scenario.scenario_b)
              (Scenario.technician 2 1 (101 # 100) true)
              (Scenario.client 7 1 1) eq_refl eq_refl eq_refl)
    as (record & Hafter & _ & _ & _ & _ & Hopen).
  exists record. split; [exact Hafter | exact Hopen].
Defined.

(** C9, as stated, fails: [assign_agent] never looks at the availability of
    the technician; in the race scenario it succeeds and commits. *)
Lemma conflict_is_surfaced_fails : ~ conflict_is_surfaced.
Proof.
  intros claim.
  destruct (claim Scenario.chosen_in_b (Scenario.start Scenario.scenario_race)
              (Scenario.technician 2 1 (101 # 100) true)
              (Scenario.technician 2 1 (101 # 100) false)
              eq_refl eq_refl eq_refl) as [Hfail _].
  vm_compute in Hfail. discriminate.
Qed.

(** C9, amended. [assign_agent] makes no availability check and has no
    conflict error: whenever the documents of the chosen technician and of
    the customer are found and carry [_id] and [name], it succeeds, whatever
    the [is_free] flag of the technician; it marks the technician as
    assigned to this customer and appends the new record with status
    ["assigned"]. *)
Theorem assign_ignores_availability (state : DispatchState) (e : env)
    (b c tech_doc cust_doc : doc)
    (Hbest : best state = Some b) (Hcust : customer state = Some c)
    (Htech : coll_find_one (All [Is "technician_id" (get b "technician_id")])
               (technicians (db e)) = Some tech_doc)
    (Hcustomer : coll_find_one (All [Is "customer_id" (get c "customer_id")])
                   (customers (db e)) = Some cust_doc)
    (Htid : is_Some (tech_doc !! "_id")) (Htname : is_Some (tech_doc !! "name"))
    (Hcid : is_Some (cust_doc !! "_id")) (Hcname : is_Some (cust_doc !! "name")) :
  is_ok (fst (assign_agent state e)) = true /\
  exists tech_oid record,
    tech_doc !! "_id" = Some tech_oid /\
    record !! "status" = Some (PStr "assigned") /\
    record !! "tech_id" = Some (get b "technician_id") /\
    db (snd (assign_agent state e)) =
      committed (get b "technician_id") (get c "customer_id") tech_oid record
        (db e).
Proof.
  assert (Hok : is_ok (fst (assign_agent state e)) = true).
  { unfold assign_agent, bind, lift, read_db, write_db, ret.
    rewrite Hbest, Hcust. cbn [deref db calls]. rewrite Htech, Hcustomer.
    destruct Htid as [tid Htid], Htname as [tn Htname],
             Hcid as [cid Hcid], Hcname as [cn Hcname].
    cbn [deref rbind]. unfold field.
    now rewrite Htid, Hcid, Hcname, Htname. }
  split; [exact Hok|].
  destruct (assign_agent_commits state e Hok)
    as (b' & c' & tech_doc' & cust_doc' & tech_oid & record
        & Hb' & Hc' & Ht' & _ & Hoid & Hrt & _ & Hstatus & _ & Hrun).
  rewrite Hbest in Hb'. rewrite Hcust in Hc'.
  injection Hb' as <-. injection Hc' as <-.
  rewrite Htech in Ht'. injection Ht' as <-.
  exists tech_oid, record. now rewrite Hrun.
Qed.

Lemma assign_ignores_availability_witness :
  is_ok (fst (assign_agent Scenario.chosen_in_b
                (Scenario.start Scenario.scenario_race))) = true.
Proof.
  refine (proj1 (assign_ignores_availability Scenario.chosen_in_b
                   (Scenario.start Scenario.scenario_race)
                   (Scenario.technician 2 1 (101 # 100) true)
                   (Scenario.client 7 1 1)
                   (Scenario.technician 2 1 (101 # 100) false)
                   (Scenario.client 7 1 1)
                   eq_refl eq_refl eq_refl eq_refl _ _ _ _));
    eexists; reflexivity.
Defined.

(** C8. [complete_assignment] on a technician who is already free answers
    "noop" and changes nothing. Called twice in a row, the second call
    changes nothing: it leaves the environment the first call left, and
    answers "noop" whenever the first call succeeded. *)
Theorem release_idempotent (technician_id : Z) (e : env) :
  let first := complete_assignment technician_id e in
  let second := complete_assignment technician_id (snd first) in
  (forall technician,
     coll_find_one (All [Is "id" (PNum (inject_Z technician_id))])
       (technicians (db e)) = Some technician ->
     technician <> ∅ ->
     truthy (default (PBool true) (technician !! "is_free")) = true ->
     first = (Ok Noop, e)) /\
  snd second = snd first /\
  (is_ok (fst first) = true -> fst second = Ok Noop) /\
  (forall x, fst first = Raise x -> second = first).
Proof.
  cbv zeta. rewrite (complete_assignment_eq technician_id e).
  set (by_id := All [Is "id" (PNum (inject_Z technician_id))]).
  destruct (coll_find_one by_id (technicians (db e)))
    as [technician|] eqn:Hfind.
  - destruct (bool_decide (technician = ∅)) eqn:Hempty.
    + apply bool_decide_eq_true in Hempty. cbn [fst snd].
      rewrite complete_assignment_eq. fold by_id. rewrite Hfind.
      rewrite bool_decide_eq_true_2 by exact Hempty.
      repeat split; try easy. intros t [= <-]. contradiction.
    + destruct (truthy (default (PBool true) (technician !! "is_free")))
        eqn:Hfree; cbn [fst snd].
      * rewrite complete_assignment_eq. fold by_id.
        rewrite Hfind, Hempty, Hfree. repeat split; easy.
      * rewrite complete_assignment_eq. fold by_id.
        cbn [db released on_assignments on_technicians technicians].
        fold by_id.
        assert (Hstill : matches by_id (set_fields released_fields technician)
                         = true).
        { apply find_some in Hfind. destruct Hfind as [_ Hm].
          unfold by_id in *. cbn [matches forallb holds] in *.
          unfold field_is in *. now rewrite released_keeps_id. }
        rewrite (find_one_update_one by_id released_fields _ _ Hfind Hstill).
        rewrite bool_decide_eq_false_2 by (cbn; apply insert_non_empty).
        rewrite released_is_free. cbn [default truthy fst snd].
        repeat split; try easy. intros t [= <-] _ Hyes. congruence.
  - cbn [fst snd]. rewrite complete_assignment_eq. fold by_id.
    rewrite Hfind. repeat split; easy.
Qed.

Lemma release_idempotent_witness :
  fst (complete_assignment 2
         (snd (complete_assignment 2 (Scenario.start Scenario.scenario_race))))
    = Ok Noop.
Proof.
  apply (proj1 (proj2 (proj2 (release_idempotent 2
                                (Scenario.start Scenario.scenario_race))))).
  reflexivity.
Defined.

(** C1. Scenario A on the program: with the customer at (0, 0) the loop
    takes the customer's coordinates for missing, asks no provider, marks
    both technicians as failed, and the dispatch raises "No technicians with
    valid distance computed" without writing anything, whatever the
    providers and the model service would have answered. There is no
    shortlist, no chosen technician and no assignment record. *)
Theorem scenario_a_raises (w : world) :
  for_each (annotate w (Some (Scenario.client 7 0 0)))
    [Scenario.far; Scenario.near] (Scenario.start Scenario.scenario_a) =
    (Ok [unresolved Scenario.far; unresolved Scenario.near],
     Scenario.start Scenario.scenario_a) /\
  rank [unresolved Scenario.far; unresolved Scenario.near] = [] /\
  dispatch w (Scenario.ticket_for 7) (Scenario.start Scenario.scenario_a) =
    (Raise no_valid, Scenario.start Scenario.scenario_a).
Proof. repeat split; vm_compute; reflexivity. Qed.

(** The same map one degree away from the zero meridian and the equator
    goes through as scenario A describes: the near technician first, then
    the far one, the near one chosen with the fallback justification, and
    one record with status ["assigned"] and method ["Geopy"]. *)
Lemma scenario_a_shifted :
  let run := dispatch Scenario.unreachable (Scenario.ticket_for 7)
               (Scenario.start Scenario.scenario_a') in
  fst (for_each (annotate Scenario.unreachable
                   (Some (Scenario.client 7 1 1)))
         [Scenario.far'; Scenario.near']
         (Scenario.start Scenario.scenario_a')) =
    Ok [marked Scenario.far' (Some (11132 # 100)%Q) "Geopy";
        marked Scenario.near' (Some (111 # 100)%Q) "Geopy"] /\
  rank [marked Scenario.far' (Some (11132 # 100)%Q) "Geopy";
        marked Scenario.near' (Some (111 # 100)%Q) "Geopy"] =
    [marked Scenario.near' (Some (111 # 100)%Q) "Geopy";
     marked Scenario.far' (Some (11132 # 100)%Q) "Geopy"] /\
  (best <$> fst_ok (fst run)) = Some (Some Scenario.near') /\
  List.map (fun d => (d !! "tech_id", d !! "status", d !! "distance_method",
                      d !! "distance_km", d !! "llm_reason"))
    (assignments (db (snd run))) =
    [(Some (PNum 2), Some (PStr "assigned"), Some (PStr "Geopy"),
      Some (PNum (111 # 100)), Some (PStr fallback_reason))].
Proof. repeat split; vm_compute; reflexivity. Qed.

(** * Further properties of the program *)

(** X1. [compute_distance] never raises and never touches the database; it
    makes between one and three calls; its tag is one of ["ORS"], ["OSRM"],
    ["Geopy"] and ["Failed"], and its distance is [None] exactly when the
    tag is ["Failed"]. *)
Theorem compute_distance_outcome (w : world) (a b : coord) (e : env) :
  exists d tag made,
    compute_distance w a b e = (Ok (d, tag), logged e made) /\
    (1 <= length made <= 3)%nat /\
    (In tag distance_tags \/ tag = "Failed"%string) /\
    (d = None <-> tag = "Failed"%string) /\
    (In tag distance_tags -> exists km, d = Some (round2 km)).
Proof.
  rewrite compute_distance_chain. cbv zeta.
  destruct (resolve_chain a b _ _ _) as [[d tag] made] eqn:Hchain.
  exists d, tag, made. split; [reflexivity|].
  unfold resolve_chain, distance_tags in *.
  destruct (primary w _ a b) as [k1|];
    [|destruct (secondary w _ a b) as [k2|];
      [|destruct (geometric w a b) as [k3|]]];
    injection Hchain as <- <- <-; cbn [length In].
  all: split; [lia|].
  all: split; [tauto|].
  all: split; [split; intros; discriminate || reflexivity|].
  all: try (intros _; eexists; reflexivity).
  intros [H|[H|[H|[]]]]; discriminate.
Qed.

Lemma compute_distance_outcome_witness :
  exists km,
    fst (compute_distance Scenario.unreachable (1, 1)%Q (1, 2)%Q
           (Scenario.start Scenario.scenario_a')) =
      Ok (Some (round2 km), "Geopy"%string).
Proof.
  destruct (compute_distance_outcome Scenario.unreachable (1, 1)%Q (1, 2)%Q
              (Scenario.start Scenario.scenario_a'))
    as (d & tag & made & Hrun & _ & _ & _ & Hkm).
  assert (Htag : tag = "Geopy"%string).
  { apply (f_equal (fun r => match fst r with
                             | Ok (_, t) => t
                             | Raise _ => EmptyString
                             end)) in Hrun.
    symmetry. exact Hrun. }
  subst tag. destruct (Hkm (or_intror (or_intror (or_introl eq_refl))))
    as [km ->].
  exists km. now rewrite Hrun.
Defined.

Lemma load_customer_eq (state : DispatchState) (e : env) :
  load_customer_agent state e =
    (let id := get (ticket state) "id" in
     let found := coll_find_one (All [Is "customer_id" id])
                    (customers (db e)) in
     if is_none id then Raise (Exception "Missing customer ID in ticket")
     else if doc_falsy found
          then Raise (ExceptionF "Customer with ID " id " not found")
     else Ok (mkState (ticket state) found (best state) (llm_reason state)),
     e).
Proof.
  unfold load_customer_agent, bind, read_db, raise, ret. cbv zeta.
  destruct (get (ticket state) "id"); cbn [is_none]; try reflexivity;
    now destruct (doc_falsy _).
Qed.

(** X2. [load_customer_agent] leaves the environment as it is. It raises
    "Missing customer ID in ticket" exactly when the ticket has no id (or
    the id [None]); when it returns, the customer of the new state is a
    non-empty document of the customers collection whose [customer_id]
    matches the id of the ticket, and the rest of the state is unchanged.
    On a collection whose documents have no [customer_id] field it never
    returns. *)
Theorem load_customer_outcome (state : DispatchState) (e : env) :
  let run := load_customer_agent state e in
  let id := get (ticket state) "id" in
  snd run = e /\
  (fst run = Raise (Exception "Missing customer ID in ticket") <->
     id = PNone) /\
  (forall state', fst run = Ok state' ->
     exists c,
       state' = mkState (ticket state) (Some c) (best state)
                  (llm_reason state) /\
       In c (customers (db e)) /\ c <> ∅ /\
       field_is c "customer_id" id = true) /\
  ((forall c, In c (customers (db e)) -> c !! "customer_id" = None) ->
   is_ok (fst run) = false).
Proof.
  cbv zeta. rewrite load_customer_eq. cbv zeta. cbn [fst snd].
  set (id := get (ticket state) "id").
  set (found := coll_find_one (All [Is "customer_id" id]) (customers (db e))).
  assert (Hfound : forall c, found = Some c ->
            In c (customers (db e)) /\ field_is c "customer_id" id = true).
  { intros c Hc. apply find_some in Hc. destruct Hc as [Hin Hm].
    cbn in Hm. now rewrite andb_true_r in Hm. }
  split; [reflexivity|].
  destruct (is_none id) eqn:Hid.
  - assert (id = PNone) as -> by (now destruct id).
    repeat split; easy.
  - assert (Hsome : id <> PNone) by (intros Heq; now rewrite Heq in Hid).
    unfold doc_falsy. destruct found as [c|] eqn:Hc.
    + destruct (Hfound c eq_refl) as [Hin Hm].
      destruct (bool_decide (c = ∅)) eqn:Hempty.
      * repeat split; try easy.
      * apply bool_decide_eq_false in Hempty.
        split; [split; [discriminate|contradiction]|]. split.
        -- intros state' [= <-]. exists c. auto.
        -- intros Hnone. unfold field_is in Hm. rewrite (Hnone c Hin) in Hm.
           destruct id; cbn in Hm; congruence.
    + repeat split; try easy.
Qed.

Lemma load_customer_outcome_witness :
  is_ok (fst (load_customer_agent
                (mkState (Scenario.ticket_for 7) None None None)
                (Scenario.start
                   (mkDb [Scenario.ticket_for 7] [] [] 0)))) = false.
Proof.
  apply (load_customer_outcome
           (mkState (Scenario.ticket_for 7) None None None)
           (Scenario.start (mkDb [Scenario.ticket_for 7] [] [] 0))).
  intros c [<-|[]]. reflexivity.
Defined.

(** ** The ranker, when it returns *)

Lemma for_each_Forall2 {A B} (f : A -> M B) (P : A -> B -> Prop) :
  (forall x e y e', f x e = (Ok y, e') -> P x y) ->
  forall l e ys e', for_each f l e = (Ok ys, e') -> Forall2 P l ys.
Proof.
  intros Hf. induction l as [|x r IH]; intros e ys e' Hrun.
  - injection Hrun as <- _. constructor.
  - cbn [for_each] in Hrun. unfold bind in Hrun.
    destruct (f x e) as [[y|?] e1] eqn:Hx; [|discriminate].
    destruct (for_each f r e1) as [[zs|?] e2] eqn:Hr; [|discriminate].
    injection Hrun as <- _. constructor; eauto.
Qed.

Lemma annotate_mark (w : world) (customer : option doc) (t t' : doc)
    (e e' : env) :
  annotate w customer t e = (Ok t', e') -> loop_mark t t'.
Proof.
  rewrite annotate_eq.
  destruct (read_coords w customer t) as [[a b]|x];
    [|intros [= <- _]; now left].
  cbv zeta. unfold resolve_chain, unresolved, distance_tags.
  destruct (t !! "technician_id") as [tid|] eqn:Htid;
    [|intros [= <- _]; now left].
  destruct (primary w _ a b) as [k1|];
    [|destruct (secondary w _ a b) as [k2|];
      [|destruct (geometric w a b) as [k3|]]];
    cbn [fst snd]; intros [= <- _].
  4: now left.
  all: right; eexists _, _; split; [reflexivity|]; split; [cbn; tauto|eauto].
Qed.

Lemma annotate_calls (w : world) (customer : option doc) (t : doc) (e : env) :
  exists made,
    snd (annotate w customer t e) = logged e made /\
    (length made <= 3)%nat /\ Forall distance_call made.
Proof.
  rewrite annotate_eq.
  destruct (read_coords w customer t) as [[a b]|x].
  - cbv zeta. cbn [snd]. eexists. split; [reflexivity|].
    unfold resolve_chain.
    destruct (primary w _ a b) as [k1|];
      [|destruct (secondary w _ a b) as [k2|];
        [|destruct (geometric w a b) as [k3|]]];
      cbn [snd length]; (split; [lia|repeat constructor]).
  - exists []. cbn [snd]. unfold logged. rewrite app_nil_r.
    split; [now destruct e|]. split; [cbn; lia|constructor].
Qed.

Lemma for_each_calls (w : world) (customer : option doc) (l : list doc)
    (e : env) :
  exists made,
    snd (for_each (annotate w customer) l e) = logged e made /\
    (length made <= 3 * length l)%nat /\ Forall distance_call made.
Proof.
  revert e. induction l as [|t r IH]; intros e.
  - exists []. cbn. unfold logged. rewrite app_nil_r.
    split; [now destruct e|]. split; [lia|constructor].
  - cbn [for_each]. unfold bind.
    destruct (annotate_total w customer t e) as (t' & e1 & Ht & _ & _).
    destruct (annotate_calls w customer t e) as (m1 & Hm1 & Hlen1 & Hall1).
    rewrite Ht in Hm1 |- *. cbn [snd] in Hm1. subst e1.
    destruct (for_each_annotate w customer r (logged e m1))
      as (ys & e2 & Hr & _ & _).
    destruct (IH (logged e m1)) as (m2 & Hm2 & Hlen2 & Hall2).
    rewrite Hr in Hm2 |- *. cbn [snd] in Hm2 |- *. subst e2.
    exists (m1 ++ m2). rewrite logged_logged. split; [reflexivity|].
    split; [rewrite length_app; cbn [length]; lia|].
    now apply Forall_app.
Qed.

Lemma next_match_member (res : pyval) (l : list doc) (dflt t : doc) :
  next_match res l dflt = Ok t -> t = dflt \/ In t l.
Proof.
  induction l as [|x r IH]; cbn [next_match].
  - intros [= <-]. now left.
  - destruct (field x "technician_id") as [tid|]; [|discriminate].
    cbn [rbind]. destruct (dict_get res "id" PNone) as [rid|]; [|discriminate].
    cbn [rbind]. destruct (py_eq tid rid).
    + intros [= <-]. right. now left.
    + intros H. destruct (IH H); [now left|right; now right].
Qed.

Lemma choose_member (w : world) (top3 : list doc) (first : doc)
    (payload : pyval) (e : env) :
  exists chosen reason,
    choose w top3 first payload e =
      (Ok (chosen, reason), logged e [CallGroq payload]) /\
    (chosen = first \/ In chosen top3).
Proof.
  rewrite choose_eq.
  destruct (model_reply w (length (calls e)) payload) as [result|x];
    cbn [rbind]; [|eexists _, _; split; [reflexivity|now left]].
  destruct (next_match result top3 first) as [t|y] eqn:Hnext;
    cbn [rbind]; [|eexists _, _; split; [reflexivity|now left]].
  apply next_match_member in Hnext.
  destruct (dict_get result "reason" (PStr default_reason));
    eexists _, _; (split; [reflexivity|]); tauto.
Qed.

Lemma prompt_entries_named (l : list doc) (entries : list pyval) :
  prompt_entries l = Ok entries ->
  Forall (fun t => is_Some (t !! "name")) l.
Proof.
  revert entries. induction l as [|t r IH]; intros entries; [constructor|].
  cbn [prompt_entries]. unfold prompt_entry, field.
  destruct (t !! "technician_id"); cbn [rbind]; [|discriminate].
  destruct (t !! "name") eqn:Hname; cbn [rbind]; [|discriminate].
  destruct (t !! "distance_km"); cbn [rbind]; [|discriminate].
  destruct (prompt_entries r) as [xs|]; cbn [rbind]; [|discriminate].
  intros _. constructor; [eauto|]. eapply IH; reflexivity.
Qed.

Lemma loop_mark_of_member (l annotated : list doc) (t' : doc) :
  Forall2 loop_mark l annotated -> In t' annotated ->
  exists t, In t l /\ loop_mark t t'.
Proof.
  induction 1 as [|t y r ys Hty _ IH]; cbn; [tauto|].
  intros [<-|Hin]; [now exists t; auto|].
  destruct (IH Hin) as (t0 & ? & ?). exists t0; auto.
Qed.

Lemma next_match_first (d : list (string * pyval)) (pre post : list doc)
    (t dflt : doc) (tid : pyval) :
  Forall (fun u => exists uid, u !! "technician_id" = Some uid /\
                     py_eq uid (default PNone (assoc "id" d)) = false) pre ->
  t !! "technician_id" = Some tid ->
  py_eq tid (default PNone (assoc "id" d)) = true ->
  next_match (PDict d) (pre ++ t :: post) dflt = Ok t.
Proof.
  intros Hpre Htid Heq. induction Hpre as [|u r (uid & Hu & Hne) _ IH];
    cbn [app next_match]; unfold field.
  - rewrite Htid. cbn [rbind dict_get]. now rewrite Heq.
  - rewrite Hu. cbn [rbind dict_get]. now rewrite Hne.
Qed.

Lemma ranker_db (w : world) (state : DispatchState) (e : env) :
  db (snd (compute_proximity_agent w state e)) = db e.
Proof.
  unfold compute_proximity_agent, bind, read_db.
  set (candidates := coll_find _ _).
  destruct (for_each_annotate w (customer state) candidates e)
    as (annotated & e1 & Hrun & Hdb & _).
  destruct candidates as [|c0 cs]; [reflexivity|].
  rewrite Hrun. destruct (rank annotated) as [|first rest]; [exact Hdb|].
  unfold lift. destruct (prompt_entries (first :: rest)); [|exact Hdb].
  destruct (json_dumps _) as [[]|]; [|exact Hdb].
  now rewrite choose_eq.
Qed.

(** What the ranker returns, read off its run. *)
Lemma ranker_returns (w : world) (state state' : DispatchState) (e e' : env) :
  compute_proximity_agent w state e = (Ok state', e') ->
  exists t km tag reason,
    state' = mkState (ticket state) (customer state)
               (Some (marked t (Some (round2 km)) tag)) (Some reason) /\
    In t (technicians (db e)) /\
    field_is t "is_free" (PBool true) = true /\
    In tag distance_tags /\
    is_Some (t !! "technician_id") /\ is_Some (t !! "name").
Proof.
  unfold compute_proximity_agent, bind, read_db.
  set (candidates := coll_find _ _).
  assert (Hfree : forall t, In t candidates ->
            In t (technicians (db e)) /\
            field_is t "is_free" (PBool true) = true).
  { intros t Hin. apply filter_In in Hin. destruct Hin as [Hin Hm].
    cbn in Hm. now rewrite andb_true_r in Hm. }
  destruct (for_each_annotate w (customer state) candidates e)
    as (annotated & e1 & Hrun & Hdb & _).
  pose proof (for_each_Forall2 _ loop_mark
                (fun t e0 t' e' => annotate_mark w (customer state) t t' e0 e')
                _ _ _ _ Hrun) as Hmarks.
  destruct candidates as [|c0 cs]; [discriminate|].
  rewrite Hrun. destruct (rank annotated) as [|first rest] eqn:Hrank;
    [discriminate|].
  unfold lift.
  destruct (prompt_entries (first :: rest)) as [entries|x] eqn:Hp;
    [|discriminate].
  destruct (json_dumps (PList entries)) as [[]|x]; [|discriminate].
  destruct (choose_member w (first :: rest) first (PList entries) e1)
    as (chosen & reason & Hch & Hmem).
  rewrite Hch. cbn [fst snd ret]. intros [= <- _].
  assert (Hin : In chosen (rank annotated)).
  { rewrite Hrank. destruct Hmem as [->|Hin]; [now left|exact Hin]. }
  destruct (rank_resolved _ _ Hin) as [Hann Hres].
  destruct (loop_mark_of_member _ _ _ Hmarks Hann) as (t & Ht & Hmark).
  destruct Hmark as [->|(km & tag & -> & Htag & Hid)].
  { unfold unresolved in Hres. rewrite resolved_marked in Hres.
    discriminate. }
  apply prompt_entries_named in Hp. rewrite <- Hrank in Hp.
  rewrite List.Forall_forall in Hp. specialize (Hp _ Hin).
  rewrite marked_other in Hp by discriminate.
  destruct (Hfree t Ht) as [Htech Hisfree].
  exists t, km, tag, reason. cbn. repeat split; auto.
Qed.



(** X4. A run of the ranker asks the model service at most once, and then
    as its last remote call: when it returns, its calls are those of the
    fallback chain, at most three for each free technician, followed by one
    call of the model service; when it raises, the model service was not
    asked. *)
Theorem ranker_calls (w : world) (state : DispatchState) (e : env) :
  let run := compute_proximity_agent w state e in
  let candidates :=
    coll_find (All [Is "is_free" (PBool true)]) (technicians (db e)) in
  exists made,
    Forall distance_call made /\
    (length made <= 3 * length candidates)%nat /\
    (is_ok (fst run) = true ->
     exists payload, calls (snd run) = calls e ++ made ++ [CallGroq payload]) /\
    (is_ok (fst run) = false -> calls (snd run) = calls e ++ made).
Proof.
  cbv zeta. unfold compute_proximity_agent, bind, read_db.
  set (candidates := coll_find _ _).
  destruct (for_each_calls w (customer state) candidates e)
    as (made & Hmade & Hlen & Hall).
  destruct (for_each_annotate w (customer state) candidates e)
    as (annotated & e1 & Hrun & _ & _).
  rewrite Hrun in Hmade. cbn [snd] in Hmade. subst e1.
  destruct candidates as [|c0 cs] eqn:Hc.
  - exists []. cbn. rewrite app_nil_r.
    repeat split; [constructor|lia|discriminate].
  - exists made. split; [exact Hall|]. split; [exact Hlen|].
    rewrite Hrun. destruct (rank annotated) as [|first rest];
      [cbn; split; [discriminate|reflexivity]|].
    unfold lift.
    destruct (prompt_entries (first :: rest)) as [entries|x];
      [|cbn; split; [discriminate|reflexivity]].
    destruct (json_dumps (PList entries)) as [[]|x];
      [|cbn; split; [discriminate|reflexivity]].
    rewrite choose_eq. cbn [fst snd ret is_ok]. split; [|discriminate].
    intros _. exists (PList entries). cbn. now rewrite <- app_assoc.
Qed.

(** X5. The arbiter always chooses an entry of the shortlist. When the
    reply of the model service is an object whose id equals the
    [technician_id] of some entry, it chooses the first such entry, with the
    reason of the reply, or ["Chosen based on proximity"] when the reply
    has none. *)
Theorem arbiter_follows_reply (w : world) (first : doc) (rest : list doc)
    (payload : pyval) (e : env) :
  let top3 := first :: rest in
  (exists chosen reason,
     choose w top3 first payload e =
       (Ok (chosen, reason), logged e [CallGroq payload]) /\
     In chosen top3) /\
  (forall d pre t post tid,
     model_reply w (length (calls e)) payload = Ok (PDict d) ->
     top3 = pre ++ t :: post ->
     Forall (fun u => exists uid, u !! "technician_id" = Some uid /\
                        py_eq uid (default PNone (assoc "id" d)) = false)
       pre ->
     t !! "technician_id" = Some tid ->
     py_eq tid (default PNone (assoc "id" d)) = true ->
     choose w top3 first payload e =
       (Ok (t, default (PStr default_reason) (assoc "reason" d)),
        logged e [CallGroq payload])).
Proof.
  cbv zeta. split.
  - destruct (choose_member w (first :: rest) first payload e)
      as (chosen & reason & Hrun & Hmem).
    exists chosen, reason. split; [exact Hrun|].
    destruct Hmem as [->|Hin]; [now left|exact Hin].
  - intros d pre t post tid Hreply -> Hpre Htid Heq.
    rewrite choose_eq, Hreply. cbn [rbind].
    now rewrite (next_match_first d pre post t first tid Hpre Htid Heq).
Qed.

Lemma arbiter_follows_reply_witness :
  choose (Scenario.talkative
            (PDict [("id"%string, PNum 1); ("reason"%string, PStr "faster")]))
         [Scenario.near'; Scenario.far'] Scenario.near' (PList [])
         (Scenario.start Scenario.scenario_a') =
    (Ok (Scenario.far', PStr "faster"),
     logged (Scenario.start Scenario.scenario_a') [CallGroq (PList [])]).
Proof.
  refine (proj2 (arbiter_follows_reply
                   (Scenario.talkative
                      (PDict [("id"%string, PNum 1);
                              ("reason"%string, PStr "faster")]))
                   Scenario.near' [Scenario.far'] (PList [])
                   (Scenario.start Scenario.scenario_a'))
                _ [Scenario.near'] Scenario.far' [] (PNum 1)
                eq_refl eq_refl _ eq_refl eq_refl).
  constructor; [|constructor]. exists (PNum 2). split; reflexivity.
Defined.

(** ** The coordinator, stage by stage *)

Lemma assign_agent_eq (state : DispatchState) (e : env) :
  assign_agent state e =
    match best state, customer state with
    | None, _ | _, None => (Raise AttributeError, e)
    | Some b, Some c =>
        let tech_id := get b "technician_id" in
        let cust_id := get c "customer_id" in
        let tech_doc := coll_find_one (All [Is "technician_id" tech_id])
                          (technicians (db e)) in
        let cust_doc := coll_find_one (All [Is "customer_id" cust_id])
                          (customers (db e)) in
        let e1 := mkEnv (flipped tech_id cust_id (db e)) (calls e) in
        match tech_doc with
        | None => (Raise TypeError, e1)
        | Some td =>
            match td !! "_id" with
            | None => (Raise (KeyError "_id"), e1)
            | Some toid =>
                let e2 := mkEnv (taken tech_id cust_id toid (db e))
                            (calls e) in
                match cust_doc with
                | None => (Raise TypeError, e2)
                | Some cd =>
                    match cd !! "_id", cd !! "name", td !! "name" with
                    | None, _, _ => (Raise (KeyError "_id"), e2)
                    | Some _, None, _ => (Raise (KeyError "name"), e2)
                    | Some _, Some _, None => (Raise (KeyError "name"), e2)
                    | Some coid, Some cname, Some tname =>
                        (Ok (mkState (ticket state) cust_doc tech_doc
                               (llm_reason state)),
                         mkEnv (insert_assignment
                                  (assignment_record b c coid toid cname
                                     tname (llm_reason state))
                                  (taken tech_id cust_id toid (db e)))
                               (calls e))
                    end
                end
            end
        end
    end.
Proof.
  unfold assign_agent, bind, lift, read_db, write_db, ret.
  destruct (best state) as [b|]; cbn [deref]; [|reflexivity].
  destruct (customer state) as [c|]; cbn [deref]; [|reflexivity].
  cbv zeta. cbn [db calls].
  destruct (coll_find_one (All [Is "technician_id" (get b "technician_id")])
              (technicians (db e))) as [td|];
    cbn [deref rbind]; [|reflexivity].
  unfold field.
  destruct (td !! "_id") as [toid|]; [|reflexivity].
  destruct (coll_find_one (All [Is "customer_id" (get c "customer_id")])
              (customers (db e))) as [cd|];
    cbn [deref rbind]; [|reflexivity].
  destruct (cd !! "_id") as [coid|]; cbn [rbind]; [|reflexivity].
  destruct (cd !! "name") as [cname|]; cbn [rbind]; [|reflexivity].
  destruct (td !! "name") as [tname|]; cbn [rbind]; reflexivity.
Qed.

Lemma closes_refl (d : doc) : closes d d.
Proof. split; [reflexivity|now left]. Qed.

Lemma closes_completed (d : doc) : closes d (set_fields completed d).
Proof.
  split; [|right; apply set_completed_status].
  intros k Hk. cbn. now rewrite lookup_insert_ne.
Qed.

Lemma update_many_closes (q : query) (c : list doc) :
  Forall2 closes c (coll_update_many q completed c).
Proof.
  unfold coll_update_many. induction c as [|d r IH]; cbn; constructor;
    [|exact IH].
  destruct (matches q d); [apply closes_completed|apply closes_refl].
Qed.

Lemma log_extends_refl (c : list doc) : log_extends c c [].
Proof.
  exists c. rewrite app_nil_r. split; [reflexivity|].
  induction c; constructor; [apply closes_refl|assumption].
Qed.

Lemma set_fields_other (upd : list (string * pyval)) (d : doc) (k : string) :
  ~ In k (List.map fst upd) -> set_fields upd d !! k = d !! k.
Proof.
  unfold set_fields. revert d. induction upd as [|[k' v] r IH]; intros d Hk;
    [reflexivity|].
  cbn [foldl]. rewrite IH by (intros H; apply Hk; now right).
  cbn. apply lookup_insert_ne. intros ->. apply Hk. now left.
Qed.

Lemma update_one_only_sets (q : query) (upd : list (string * pyval))
    (c : list doc) :
  Forall2 (only_sets (List.map fst upd)) c (coll_update_one q upd c).
Proof.
  induction c as [|d r IH]; cbn [coll_update_one]; [constructor|].
  destruct (matches q d).
  - constructor.
    + intros k Hk. now apply set_fields_other.
    + clear IH. induction r; constructor; [now intros k _|assumption].
  - constructor; [now intros k _|exact IH].
Qed.

Lemma find_one_update_through (q1 q2 : query) (upd : list (string * pyval))
    (c : list doc) (d : doc) :
  coll_find_one q1 c = Some d ->
  coll_find_one q2 c = Some d ->
  matches q1 (set_fields upd d) = true ->
  coll_find_one q1 (coll_update_one q2 upd c) = Some (set_fields upd d).
Proof.
  unfold coll_find_one. intros H1 H2 Hkeep.
  induction c as [|a r IH]; [discriminate|].
  cbn [find coll_update_one] in *.
  destruct (matches q1 a) eqn:Ha1, (matches q2 a) eqn:Ha2.
  - injection H1 as ->. cbn [find]. now rewrite Hkeep.
  - injection H1 as ->. apply find_some in H2. destruct H2 as [_ H2].
    congruence.
  - injection H2 as ->. apply find_some in H1. destruct H1 as [_ H1].
    congruence.
  - cbn [find]. rewrite Ha1. now apply IH.
Qed.

(** X6. [assign_agent] is not atomic. Whenever it raises after it has read
    the technician and the customer from the state, the exception is a
    [TypeError] or a [KeyError], the stale assignments have already been
    set to ["completed"], and no record has been inserted: afterwards no
    record with status ["assigned"] references the technician. When the
    technician's document is not found, the technicians are left as they
    were. *)
Theorem assign_failure_not_atomic (state : DispatchState) (e : env)
    (b c : doc)
    (Hbest : best state = Some b) (Hcust : customer state = Some c)
    (Hfail : is_ok (fst (assign_agent state e)) = false) :
  let tech_id := get b "technician_id" in
  let cust_id := get c "customer_id" in
  let after := db (snd (assign_agent state e)) in
  (exists x, fst (assign_agent state e) = Raise x /\
             (x = TypeError \/ exists k, x = KeyError k)) /\
  assignments after =
    coll_update_many (stale tech_id cust_id) completed (assignments (db e)) /\
  open_for tech_id (assignments after) = [] /\
  customers after = customers (db e) /\
  (coll_find_one (All [Is "technician_id" tech_id]) (technicians (db e))
     = None ->
   technicians after = technicians (db e)).
Proof.
  revert Hfail. rewrite assign_agent_eq, Hbest, Hcust. cbv zeta.
  destruct (coll_find_one (All [Is "technician_id" (get b "technician_id")])
              (technicians (db e))) as [td|];
    [destruct (td !! "_id") as [toid|];
     [destruct (coll_find_one (All [Is "customer_id" (get c "customer_id")])
                  (customers (db e))) as [cd|];
      [destruct (cd !! "_id") as [coid|], (cd !! "name") as [cname|],
                (td !! "name") as [tname|]; try discriminate|]|]|].
  all: intros _;
    cbn [fst snd db flipped taken on_assignments on_technicians
         assignments customers technicians];
    rewrite open_for_stale.
  all: split; [eexists; split; [reflexivity|eauto]|].
  all: repeat split; easy.
Qed.

Lemma assign_failure_not_atomic_witness :
  assignments
    (db (snd (assign_agent Scenario.chosen_in_b
                (Scenario.start
                   (mkDb [Scenario.client 7 1 1] []
                      [Scenario.assignment 2 5 "assigned"] 0))))) =
    [<["status" := PStr "completed"]> (Scenario.assignment 2 5 "assigned")].
Proof.
  apply (assign_failure_not_atomic Scenario.chosen_in_b
           (Scenario.start
              (mkDb [Scenario.client 7 1 1] []
                 [Scenario.assignment 2 5 "assigned"] 0))
           (Scenario.technician 2 1 (101 # 100) true)
           (Scenario.client 7 1 1) eq_refl eq_refl eq_refl).
Defined.

(** X7. When [assign_agent] succeeds and the [_id] of the technician's
    document picks that same document, the first document with the
    technician's [technician_id] is afterwards that document with
    [is_free] false, [availability_status] ["assigned"] and
    [assigned_customer] the customer's id; it is no longer a free
    technician, and no other field of any technician has changed. *)
Theorem assign_marks_technician (state : DispatchState) (e : env)
    (b c tech_doc : doc) (tech_oid : pyval)
    (Hbest : best state = Some b) (Hcust : customer state = Some c)
    (Hok : is_ok (fst (assign_agent state e)) = true)
    (Htech : coll_find_one (All [Is "technician_id" (get b "technician_id")])
               (technicians (db e)) = Some tech_doc)
    (Hoid : tech_doc !! "_id" = Some tech_oid)
    (Hsame : coll_find_one (All [Is "_id" tech_oid]) (technicians (db e))
             = Some tech_doc) :
  let after := technicians (db (snd (assign_agent state e))) in
  let tech_doc' := set_fields (assigned_fields (get c "customer_id")) tech_doc in
  coll_find_one (All [Is "technician_id" (get b "technician_id")]) after
    = Some tech_doc' /\
  tech_doc' !! "is_free" = Some (PBool false) /\
  tech_doc' !! "availability_status" = Some (PStr "assigned") /\
  tech_doc' !! "assigned_customer" = Some (get c "customer_id") /\
  matches (All [Is "is_free" (PBool true)]) tech_doc' = false /\
  Forall2 (only_sets availability_fields) (technicians (db e)) after.
Proof.
  revert Hok. rewrite assign_agent_eq, Hbest, Hcust. cbv zeta.
  rewrite Htech, Hoid.
  destruct (coll_find_one (All [Is "customer_id" (get c "customer_id")])
              (customers (db e))) as [cd|]; [|discriminate].
  destruct (cd !! "_id") as [coid|], (cd !! "name") as [cname|],
           (tech_doc !! "name") as [tname|]; try discriminate.
  intros _. cbn [snd db insert_assignment taken on_technicians flipped
                 on_assignments technicians].
  assert (Hfree : set_fields (assigned_fields (get c "customer_id")) tech_doc
                    !! "is_free" = Some (PBool false)).
  { cbn. rewrite !lookup_insert_ne by discriminate. apply lookup_insert_eq. }
  split; [|split; [exact Hfree|split; [|split; [|split]]]].
  - apply find_one_update_through; [exact Htech|exact Hsame|].
    apply find_some in Htech. destruct Htech as [_ Hm].
    cbn [matches forallb holds] in *. unfold field_is in *.
    now rewrite set_fields_other by (cbn; intuition discriminate).
  - cbn. rewrite lookup_insert_ne by discriminate. apply lookup_insert_eq.
  - cbn. apply lookup_insert_eq.
  - cbn [matches forallb holds]. unfold field_is. now rewrite Hfree.
  - exact (update_one_only_sets (All [Is "_id" tech_oid])
             (assigned_fields (get c "customer_id")) (technicians (db e))).
Qed.

Lemma assign_marks_technician_witness :
  matches (All [Is "is_free" (PBool true)])
    (set_fields (assigned_fields (PNum 7))
       (Scenario.technician 2 1 (101 # 100) true)) = false.
Proof.
  apply (assign_marks_technician Scenario.chosen_in_b
           (Scenario.start Scenario.scenario_b)
           (Scenario.technician 2 1 (101 # 100) true)
           (Scenario.client 7 1 1)
           (Scenario.technician 2 1 (101 # 100) true) (PObjId 2)
           eq_refl eq_refl eq_refl eq_refl eq_refl eq_refl).
Defined.

Lemma load_customer_outcome_aux (tk : doc) (e : env) (s1 : DispatchState) :
  load_customer_agent (mkState tk None None None) e = (Ok s1, e) ->
  exists c,
    s1 = mkState tk (Some c) None None /\
    In c (customers (db e)) /\
    field_is c "customer_id" (get tk "id") = true.
Proof.
  rewrite load_customer_eq. cbv zeta. cbn [ticket best llm_reason].
  destruct (is_none (get tk "id")); [discriminate|].
  destruct (coll_find_one _ _) as [c|] eqn:Hfind; [|discriminate].
  unfold doc_falsy. destruct (bool_decide (c = ∅)); [discriminate|].
  intros [= <-]. exists c. apply find_some in Hfind.
  destruct Hfind as [Hin Hm]. cbn in Hm. rewrite andb_true_r in Hm. auto.
Qed.

(** ** The graph as a whole *)

Lemma only_sets_refl (keys : list string) (c : list doc) :
  Forall2 (only_sets keys) c c.
Proof. induction c; constructor; [now intros k _|assumption]. Qed.

Lemma assign_agent_log (state : DispatchState) (e : env) :
  let before := db e in
  let after := db (snd (assign_agent state e)) in
  customers after = customers before /\
  Forall2 (only_sets availability_fields) (technicians before)
    (technicians after) /\
  exists new,
    log_extends (assignments before) (assignments after) new /\
    (is_ok (fst (assign_agent state e)) = true ->
     exists r, new = [r] /\ r !! "status" = Some (PStr "assigned")) /\
    (is_ok (fst (assign_agent state e)) = false -> new = []).
Proof.
  cbv zeta. rewrite assign_agent_eq.
  assert (Hnone : forall x : exn,
    customers (db (snd (@Raise DispatchState x, e))) = customers (db e) /\
    Forall2 (only_sets availability_fields) (technicians (db e))
      (technicians (db (snd (@Raise DispatchState x, e)))) /\
    exists new,
      log_extends (assignments (db e))
        (assignments (db (snd (@Raise DispatchState x, e)))) new /\
      (is_ok (fst (@Raise DispatchState x, e)) = true ->
       exists r, new = [r] /\ r !! "status" = Some (PStr "assigned")) /\
      (is_ok (fst (@Raise DispatchState x, e)) = false -> new = [])).
  { intros x. cbn. split; [reflexivity|]. split; [apply only_sets_refl|].
    exists []. split; [apply log_extends_refl|]. split; easy. }
  destruct (best state) as [b|]; [|apply Hnone].
  destruct (customer state) as [c|]; [|apply Hnone].
  cbv zeta. clear Hnone.
  assert (Hflip : forall (x : exn) ts,
    Forall2 (only_sets availability_fields) (technicians (db e)) ts ->
    customers (db e) = customers (db e) /\
    Forall2 (only_sets availability_fields) (technicians (db e)) ts /\
    exists new,
      log_extends (assignments (db e))
        (coll_update_many
           (stale (get b "technician_id") (get c "customer_id")) completed
           (assignments (db e))) new /\
      (is_ok (@Raise DispatchState x) = true ->
       exists r, new = [r] /\ r !! "status" = Some (PStr "assigned")) /\
      (is_ok (@Raise DispatchState x) = false -> new = [])).
  { intros x ts Hts. split; [reflexivity|]. split; [exact Hts|].
    exists []. split; [|split; easy].
    eexists. rewrite app_nil_r. split; [reflexivity|].
    apply update_many_closes. }
  destruct (coll_find_one (All [Is "technician_id" (get b "technician_id")])
              (technicians (db e))) as [td|];
    [|apply Hflip, only_sets_refl].
  destruct (td !! "_id") as [toid|]; [|apply Hflip, only_sets_refl].
  pose proof (update_one_only_sets (All [Is "_id" toid])
                (assigned_fields (get c "customer_id"))
                (technicians (db e))) as Hts.
  destruct (coll_find_one (All [Is "customer_id" (get c "customer_id")])
              (customers (db e))) as [cd|]; [|apply (Hflip _ _ Hts)].
  destruct (cd !! "_id") as [coid|], (cd !! "name") as [cname|],
           (td !! "name") as [tname|]; try apply (Hflip _ _ Hts).
  cbn [fst snd db insert_assignment taken flipped on_technicians
       on_assignments customers technicians assignments is_ok].
  split; [reflexivity|]. split; [exact Hts|].
  eexists [_]. split; [|split; [|discriminate]].
  - eexists. split; [reflexivity|]. apply update_many_closes.
  - intros _. eexists. split; [reflexivity|].
    now rewrite lookup_insert_ne by discriminate.
Qed.

Lemma dispatch_split (w : world) (tk : doc) (e : env) :
  (is_ok (fst (dispatch w tk e)) = false /\
   db (snd (dispatch w tk e)) = db e) \/
  exists s1 s2 e2,
    load_customer_agent (mkState tk None None None) e = (Ok s1, e) /\
    compute_proximity_agent w s1 e = (Ok s2, e2) /\
    db e2 = db e /\
    dispatch w tk e = assign_agent s2 e2.
Proof.
  unfold dispatch, bind. rewrite load_customer_eq. cbv zeta.
  destruct (if is_none _ then _ else _) as [s1|x]; [|now left].
  pose proof (ranker_db w s1 e) as Hdb.
  destruct (compute_proximity_agent w s1 e) as [[s2|x] e2] eqn:Hrun;
    [|now left].
  right. exists s1, s2, e2. auto.
Qed.

(** X8. Whatever its outcome, a dispatch leaves the customers as they
    were, changes nothing of a technician but the three availability
    fields, and treats the assignments as a log: no record is removed or
    reordered, a record changes at most in its status and then to
    ["completed"], and at most one record is appended, with status
    ["assigned"], which happens exactly when the dispatch returns. *)
Theorem dispatch_append_only (w : world) (tk : doc) (e : env) :
  let before := db e in
  let after := db (snd (dispatch w tk e)) in
  customers after = customers before /\
  Forall2 (only_sets availability_fields) (technicians before)
    (technicians after) /\
  exists new,
    log_extends (assignments before) (assignments after) new /\
    (is_ok (fst (dispatch w tk e)) = true ->
     exists r, new = [r] /\ r !! "status" = Some (PStr "assigned")) /\
    (is_ok (fst (dispatch w tk e)) = false -> new = []).
Proof.
  cbv zeta.
  destruct (dispatch_split w tk e) as [[Hfail Hdb]|(s1 & s2 & e2 & _ & _ & Hdb & Hrun)].
  - rewrite Hdb. split; [reflexivity|]. split; [apply only_sets_refl|].
    exists []. split; [apply log_extends_refl|].
    split; [congruence|reflexivity].
  - rewrite Hrun, <- Hdb. apply assign_agent_log.
Qed.



(** ** Releasing a technician *)

Lemma ongoing_closed (technician_id : Z) (c : list doc) :
  coll_find (ongoing technician_id)
    (coll_update_many (ongoing technician_id) completed c) = [].
Proof.
  unfold coll_find, coll_update_many.
  induction c as [|d r IH]; [reflexivity|]. cbn [List.map List.filter].
  destruct (matches (ongoing technician_id) d) eqn:Hm.
  - replace (matches (ongoing technician_id) (set_fields completed d))
      with false; [exact IH|].
    cbn [matches ongoing forallb holds]. unfold field_is at 2.
    rewrite set_completed_status. cbn [bson_eq].
    rewrite String.eqb_refl. cbn. now rewrite andb_false_r.
  - now rewrite Hm.
Qed.

Lemma update_many_keeps (q : query) (upd : list (string * pyval))
    (c : list doc) (d : doc) :
  In d c -> matches q d = false -> In d (coll_update_many q upd c).
Proof.
  intros Hin Hm. unfold coll_update_many.
  apply (in_map (fun x => if matches q x then set_fields upd x else x)) in Hin.
  now rewrite Hm in Hin.
Qed.

(** X10. When [complete_assignment] answers "success", the technician was
    not free; afterwards the first technician with that id is free, with no
    assigned customer and status ["available"]; every assignment of that
    technician that was not completed is completed, and their number is the
    count the answer reports; the assignments of other technicians, the
    customers and every other field of the technicians are untouched, and
    no assignment is added or removed. *)
Theorem release_effects (technician_id : Z) (e : env) (n : nat)
    (Hdone : fst (complete_assignment technician_id e) = Ok (Released n)) :
  let by_id := All [Is "id" (PNum (inject_Z technician_id))] in
  let after := db (snd (complete_assignment technician_id e)) in
  exists technician,
    coll_find_one by_id (technicians (db e)) = Some technician /\
    truthy (default (PBool true) (technician !! "is_free")) = false /\
    coll_find_one by_id (technicians after) =
      Some (set_fields released_fields technician) /\
    set_fields released_fields technician !! "is_free" = Some (PBool true) /\
    set_fields released_fields technician !! "assigned_customer"
      = Some PNone /\
    set_fields released_fields technician !! "availability_status"
      = Some (PStr "available") /\
    coll_find (ongoing technician_id) (assignments after) = [] /\
    n = length (coll_find (ongoing technician_id) (assignments (db e))) /\
    log_extends (assignments (db e)) (assignments after) [] /\
    (forall d, In d (assignments (db e)) ->
               matches (ongoing technician_id) d = false ->
               In d (assignments after)) /\
    customers after = customers (db e) /\
    Forall2 (only_sets availability_fields) (technicians (db e))
      (technicians after).
Proof.
  cbv zeta. revert Hdone. rewrite complete_assignment_eq.
  set (by_id := All [Is "id" (PNum (inject_Z technician_id))]).
  destruct (coll_find_one by_id (technicians (db e)))
    as [technician|] eqn:Hfind; [|discriminate].
  destruct (bool_decide (technician = ∅)); [discriminate|].
  destruct (truthy (default (PBool true) (technician !! "is_free")))
    eqn:Hfree; [discriminate|].
  cbn [fst snd db released on_assignments on_technicians technicians
       assignments customers].
  intros [= <-]. exists technician.
  split; [reflexivity|]. split; [exact Hfree|]. split.
  { apply find_one_update_one; [exact Hfind|].
    apply find_some in Hfind. destruct Hfind as [_ Hm].
    unfold by_id in *. cbn [matches forallb holds] in *.
    unfold field_is in *. now rewrite released_keeps_id. }
  split; [apply released_is_free|].
  split; [cbn; rewrite lookup_insert_ne by discriminate;
          apply lookup_insert_eq|].
  split; [cbn; apply lookup_insert_eq|].
  split; [apply ongoing_closed|]. split; [reflexivity|]. split.
  { eexists. rewrite app_nil_r. split; [reflexivity|].
    apply update_many_closes. }
  split; [intros d; apply update_many_keeps|]. split; [reflexivity|].
  eapply Forall2_impl;
    [exact (update_one_only_sets by_id released_fields
              (technicians (db e)))|].
  intros d d' Hset k Hk. apply Hset. cbn in *. tauto.
Qed.

Lemma release_effects_witness :
  coll_find (ongoing 2)
    (assignments (db (snd (complete_assignment 2
                             (Scenario.start Scenario.scenario_race))))) = [].
Proof.
  destruct (release_effects 2 (Scenario.start Scenario.scenario_race) 1
              eq_refl) as (technician & _ & _ & _ & _ & _ & _ & Hnone & _).
  exact Hnone.
Defined.

(** ** [recommend_technician] *)

Lemma distance_entry_fields (id name : pyval) (km : Q) (method : string) :
  distance_entry id name km method !! "technician_id" = Some id /\
  distance_entry id name km method !! "name" = Some name /\
  distance_entry id name km method !! "distance_km" = Some (PNum (round2 km)) /\
  distance_entry id name km method !! "method" = Some (PStr method).
Proof. repeat split; reflexivity. Qed.

Lemma compute_distance_ors_tag (s : services) (i : nat)
    (c1 c2 : pyval * pyval) (km : Q) (method : string) :
  compute_distance_ors s i c1 c2 = (Some km, method) -> method = "ORS"%string.
Proof.
  unfold compute_distance_ors. destruct (directions s i c1 c2); [|discriminate].
  destruct (_ <~ ors_meters _ ;; _); now intros [= _ <-].
Qed.

Lemma measure_all_entries (s : services) (cc : pyval * pyval)
    (techs : list doc) :
  forall i ds, measure_all s cc i techs = Ok ds ->
               Forall (measured_entry techs) ds.
Proof.
  induction techs as [|tech r IH]; intros i ds; cbn [measure_all].
  - intros [= <-]. constructor.
  - unfold measure, field.
    destruct (tech !! "longitude") as [lon|]; cbn [rbind]; [|discriminate].
    destruct (tech !! "latitude") as [lat|]; cbn [rbind]; [|discriminate].
    destruct (compute_distance_ors s i cc (lon, lat)) as [[km|] method] eqn:Hd.
    + apply compute_distance_ors_tag in Hd. subst method.
      destruct (tech !! "id") as [id|] eqn:Hid; cbn [rbind]; [|discriminate].
      destruct (tech !! "name") as [name|] eqn:Hname; cbn [rbind];
        [|discriminate].
      destruct (measure_all s cc (S i) r) as [rest|] eqn:Hrest; cbn [rbind];
        [|discriminate].
      intros [= <-]. constructor.
      * exists tech, id, name, km. repeat split; auto. now left.
      * eapply Forall_impl; [exact (IH _ _ Hrest)|].
        intros t (t0 & i0 & n0 & k0 & Hin & H1 & H2 & H3).
        exists t0, i0, n0, k0. repeat split; auto. now right.
    + destruct (tech !! "id"); cbn [rbind]; [|discriminate].
      destruct (measure_all s cc (S i) r) as [rest|] eqn:Hrest; cbn [rbind];
        [|discriminate].
      intros [= <-]. eapply Forall_impl; [exact (IH _ _ Hrest)|].
      intros t (t0 & i0 & n0 & k0 & Hin & H1 & H2 & H3).
      exists t0, i0, n0, k0. repeat split; auto. now right.
Qed.

Lemma ranked_entries (s : services) (customer_id : Z) (b : database)
    (top3 : list doc) :
  ranked s customer_id b = Ok top3 ->
  top3 <> [] /\ (length top3 <= 3)%nat /\ ascending distance_key top3 /\
  Forall (measured_entry
            (coll_find (All [Is "is_free" (PBool true)]) (technicians b)))
    top3.
Proof.
  unfold ranked.
  destruct (coll_find_one _ (customers b)) as [customer|]; [|discriminate].
  destruct (bool_decide (customer = ∅)); [discriminate|].
  destruct (field customer "longitude") as [clon|]; cbn [rbind]; [|discriminate].
  destruct (field customer "latitude") as [clat|]; cbn [rbind]; [|discriminate].
  set (free := coll_find _ (technicians b)).
  destruct free as [|t0 ts] eqn:Hfree; [discriminate|].
  destruct (measure_all s (clon, clat) 0 (t0 :: ts)) as [ds|] eqn:Hm;
    cbn [rbind]; [|discriminate].
  apply measure_all_entries in Hm.
  destruct ds as [|d0 dr] eqn:Hds; [discriminate|]. rewrite <- Hds in *.
  intros [= <-].
  pose proof (sorted_ascending distance_key ds) as Hasc.
  pose proof (sorted_perm distance_key ds) as Hperm.
  repeat split.
  - intros Hnil.
    assert (Hlen : length (sorted distance_key ds) = 0%nat).
    { destruct (sorted distance_key ds); [reflexivity|discriminate]. }
    rewrite sorted_length, Hds in Hlen. discriminate.
  - apply firstn_le_length.
  - unfold ascending in *.
    rewrite <- (firstn_skipn 3 (sorted distance_key ds)) in Hasc.
    now apply StronglySorted_app_1_l in Hasc.
  - apply List.Forall_forall. intros t Hin. apply firstn_In in Hin.
    apply (Permutation_in _ Hperm) in Hin.
    rewrite List.Forall_forall in Hm. now apply Hm.
Qed.

Lemma next_by_id_some (best_id : pyval) (top3 : list doc) (best : doc) :
  next_by_id best_id top3 = Ok (Some best) ->
  In best top3 /\
  exists tid, best !! "technician_id" = Some tid /\ py_eq tid best_id = true.
Proof.
  induction top3 as [|t r IH]; cbn [next_by_id]; [discriminate|].
  unfold field. destruct (t !! "technician_id") as [tid|] eqn:Htid;
    cbn [rbind]; [|discriminate].
  destruct (py_eq tid best_id) eqn:Heq.
  - intros [= <-]. split; [now left|eauto].
  - intros H. destruct (IH H) as [Hin Hex]. split; [now right|exact Hex].
Qed.

Lemma next_by_id_none (best_id : pyval) (top3 : list doc) :
  Forall (fun t => exists tid, t !! "technician_id" = Some tid /\
                     py_eq tid best_id = false) top3 ->
  next_by_id best_id top3 = Ok None.
Proof.
  induction 1 as [|t r (tid & Htid & Hne) _ IH]; [reflexivity|].
  cbn [next_by_id]. unfold field. rewrite Htid. cbn [rbind].
  now rewrite Hne.
Qed.

Lemma measured_entry_id (techs : list doc) (t : doc) :
  measured_entry techs t -> is_Some (t !! "technician_id").
Proof. intros (tech & id & name & km & _ & _ & _ & ->). now eexists. Qed.

Lemma llm_recommend_total (s : services) (customer_id : Z) (top3 : list doc)
    (techs : list doc) :
  top3 <> [] -> Forall (measured_entry techs) top3 ->
  exists best_id,
    llm_recommend_best_technician s customer_id top3 = Ok best_id.
Proof.
  intros Hne Hall. unfold llm_recommend_best_technician.
  destruct (model_pick s customer_id top3); [eauto|].
  destruct top3 as [|first rest]; [contradiction|].
  inversion Hall as [|? ? Hfirst _]; subst.
  destruct (measured_entry_id _ _ Hfirst) as [tid Htid].
  unfold field. rewrite Htid. eauto.
Qed.

Lemma measure_all_raises (s : services) (cc : pyval * pyval)
    (techs : list doc) :
  forall i x, measure_all s cc i techs = Raise x -> exists k, x = KeyError k.
Proof.
  induction techs as [|tech r IH]; intros i x; cbn [measure_all];
    [discriminate|].
  unfold measure, field.
  destruct (tech !! "longitude") as [lon|]; cbn [rbind];
    [|intros [= <-]; eauto].
  destruct (tech !! "latitude") as [lat|]; cbn [rbind];
    [|intros [= <-]; eauto].
  destruct (compute_distance_ors s i cc (lon, lat)) as [[km|] method].
  - destruct (tech !! "id"); cbn [rbind]; [|intros [= <-]; eauto].
    destruct (tech !! "name"); cbn [rbind]; [|intros [= <-]; eauto].
    destruct (measure_all s cc (S i) r) eqn:Hrest; cbn [rbind];
      [discriminate|]. intros [= <-]. eauto.
  - destruct (tech !! "id"); cbn [rbind]; [|intros [= <-]; eauto].
    destruct (measure_all s cc (S i) r) eqn:Hrest; cbn [rbind];
      [discriminate|]. intros [= <-]. eauto.
Qed.

Lemma ranked_raises (s : services) (customer_id : Z) (b : database) (x : exn) :
  ranked s customer_id b = Raise x -> recommend_error x.
Proof.
  unfold ranked, recommend_error, field.
  destruct (coll_find_one _ (customers b)) as [customer|];
    [|intros [= <-]; tauto].
  destruct (bool_decide (customer = ∅)); [intros [= <-]; tauto|].
  destruct (customer !! "longitude"); cbn [rbind];
    [|intros [= <-]; eauto 6].
  destruct (customer !! "latitude"); cbn [rbind];
    [|intros [= <-]; eauto 6].
  destruct (coll_find _ (technicians b)) as [|t0 ts];
    [intros [= <-]; tauto|].
  destruct (measure_all s _ 0 (t0 :: ts)) as [ds|y] eqn:Hm; cbn [rbind].
  - destruct ds; [intros [= <-]; tauto|discriminate].
  - intros [= <-]. apply measure_all_raises in Hm. tauto.
Qed.

(** The three ways a request ends. *)
Lemma recommend_cases (s : services) (customer_id : Z) (e : env) :
  (exists x, ranked s customer_id (db e) = Raise x /\
             recommend_technician s customer_id e = (Uncaught x, e)) \/
  (exists top3 best_id,
     ranked s customer_id (db e) = Ok top3 /\
     llm_recommend_best_technician s customer_id top3 = Ok best_id /\
     next_by_id best_id top3 = Ok None /\
     recommend_technician s customer_id e = (StopIteration, e)) \/
  (exists top3 best_id id name km,
     ranked s customer_id (db e) = Ok top3 /\
     llm_recommend_best_technician s customer_id top3 = Ok best_id /\
     In (distance_entry id name km "ORS") top3 /\
     py_eq id best_id = true /\
     recommend_technician s customer_id e =
       (Recommended top3 id,
        mkEnv (insert_assignment
                 (recommendation_record customer_id id (PNum (round2 km))
                    (PStr "ORS"))
                 (on_technicians
                    (coll_update_one (All [Is "id" id])
                       (recommended_fields customer_id)) (db e)))
              (calls e))).
Proof.
  unfold recommend_technician.
  destruct (ranked s customer_id (db e)) as [top3|x] eqn:Hranked;
    cbn [rbind]; [|left; eauto].
  right. destruct (ranked_entries _ _ _ _ Hranked) as (Hne & _ & _ & Hall).
  destruct (llm_recommend_total s customer_id top3 _ Hne Hall)
    as [best_id Hllm].
  rewrite Hllm. cbn [rbind].
  destruct (next_by_id best_id top3) as [[best|]|x] eqn:Hnext; cbn [rbind].
  - right. destruct (next_by_id_some _ _ _ Hnext) as (Hin & tid & Htid & Heq).
    rewrite List.Forall_forall in Hall.
    destruct (Hall _ Hin) as (tech & id & name & km & _ & _ & _ & ->).
    injection Htid as <-.
    exists top3, best_id, id, name, km. now repeat split.
  - left. exists top3, best_id. now repeat split.
  - exfalso. clear Hllm Hranked Hne.
    induction Hall as [|t r Ht _ IH]; [discriminate|].
    cbn [next_by_id] in Hnext. destruct (measured_entry_id _ _ Ht) as [tid Htid].
    unfold field in Hnext. rewrite Htid in Hnext. cbn [rbind] in Hnext.
    destruct (py_eq tid best_id); [discriminate|]. now apply IH.
Qed.

Lemma ranked_free (s : services) (customer_id : Z) (b : database)
    (top3 : list doc) (id name : pyval) (km : Q) :
  ranked s customer_id b = Ok top3 ->
  In (distance_entry id name km "ORS") top3 ->
  exists tech, In tech (technicians b) /\
               field_is tech "is_free" (PBool true) = true /\
               tech !! "id" = Some id.
Proof.
  intros Hranked Hin.
  destruct (ranked_entries _ _ _ _ Hranked) as (_ & _ & _ & Hall).
  rewrite List.Forall_forall in Hall.
  destruct (Hall _ Hin) as (tech & id' & name' & km' & Hfree & Hid & _ & Heq).
  apply (f_equal (fun d : doc => d !! "technician_id")) in Heq.
  destruct (distance_entry_fields id name km "ORS") as [H1 _].
  destruct (distance_entry_fields id' name' km' "ORS") as [H2 _].
  rewrite H1, H2 in Heq. injection Heq as ->.
  apply filter_In in Hfree. destruct Hfree as [Htech Hm].
  cbn in Hm. rewrite andb_true_r in Hm. eauto.
Qed.

(** X11. When [recommend_technician] answers, its shortlist is not empty,
    has at most 3 entries, is in ascending order of distance, and each
    entry was made from a free technician of the database, with that
    technician's id and name, a distance rounded to two decimals and the
    method ["ORS"]; the technician it names is one of the shortlist. *)
Theorem recommend_shortlist (s : services) (customer_id : Z) (e : env)
    (top3 : list doc) (best_id : pyval)
    (Hdone : fst (recommend_technician s customer_id e)
             = Recommended top3 best_id) :
  top3 <> [] /\ (length top3 <= 3)%nat /\ ascending distance_key top3 /\
  Forall (fun t =>
            exists tech id name km,
              In tech (technicians (db e)) /\
              field_is tech "is_free" (PBool true) = true /\
              tech !! "id" = Some id /\ tech !! "name" = Some name /\
              t = distance_entry id name km "ORS") top3 /\
  exists name km, In (distance_entry best_id name km "ORS") top3.
Proof.
  destruct (recommend_cases s customer_id e)
    as [(x & _ & Hrun)|[(t3 & b & _ & _ & _ & Hrun)
        |(t3 & b & id & name & km & Hranked & _ & Hin & _ & Hrun)]];
    rewrite Hrun in Hdone; try discriminate.
  injection Hdone as -> ->.
  destruct (ranked_entries _ _ _ _ Hranked) as (Hne & Hlen & Hasc & Hall).
  repeat split; try assumption; [|eauto].
  eapply Forall_impl; [exact Hall|].
  intros t (tech & i & n & k & Hfree & Hid & Hname & ->).
  apply filter_In in Hfree. destruct Hfree as [Htech Hm].
  cbn in Hm. rewrite andb_true_r in Hm.
  exists tech, i, n, k. auto.
Qed.

Lemma recommend_shortlist_witness :
  ascending distance_key
    [distance_entry (PNum 1) (PStr "tech") (15 # 10) "ORS";
     distance_entry (PNum 2) (PStr "tech") (25 # 10) "ORS"].
Proof.
  apply (recommend_shortlist (Scenario.road "2") 7
           (Scenario.start Scenario.scenario_main)
           [distance_entry (PNum 1) (PStr "tech") (15 # 10) "ORS";
            distance_entry (PNum 2) (PStr "tech") (25 # 10) "ORS"]
           (PNum 2)).
  vm_compute. reflexivity.
Defined.

(** X12. When the answer of the model service holds digits whose decimal
    value is the [technician_id] of no entry of the shortlist,
    [recommend_technician] ends with the [StopIteration] of [next], and
    nothing has been written. *)
Theorem recommend_stop_iteration (s : services) (customer_id : Z) (e : env)
    (top3 : list doc) (n : Z)
    (Hranked : ranked s customer_id (db e) = Ok top3)
    (Hpick : model_pick s customer_id top3 = Ok n)
    (Hnobody : forall t tid, In t top3 -> t !! "technician_id" = Some tid ->
                             py_eq tid (PNum (inject_Z n)) = false) :
  recommend_technician s customer_id e = (StopIteration, e).
Proof.
  destruct (ranked_entries _ _ _ _ Hranked) as (_ & _ & _ & Hall).
  unfold recommend_technician. rewrite Hranked. cbn [rbind].
  unfold llm_recommend_best_technician. rewrite Hpick. cbn [rbind].
  rewrite next_by_id_none; [reflexivity|].
  rewrite List.Forall_forall in Hall |- *. intros t Hin.
  destruct (measured_entry_id _ _ (Hall t Hin)) as [tid Htid].
  exists tid. split; [exact Htid|]. eapply Hnobody; eassumption.
Qed.

Lemma recommend_stop_iteration_witness :
  recommend_technician (Scenario.road "Technician 2 (1.5 km)") 7
    (Scenario.start Scenario.scenario_main) =
    (StopIteration, Scenario.start Scenario.scenario_main).
Proof.
  apply (recommend_stop_iteration (Scenario.road "Technician 2 (1.5 km)") 7
           (Scenario.start Scenario.scenario_main)
           [distance_entry (PNum 1) (PStr "tech") (15 # 10) "ORS";
            distance_entry (PNum 2) (PStr "tech") (25 # 10) "ORS"] 215).
  - vm_compute. reflexivity.
  - vm_compute. reflexivity.
  - intros t tid [<-|[<-|[]]] [= <-]; reflexivity.
Defined.

(** X13. When [recommend_technician] answers, it has appended one record
    with status ["assigned"] for the technician it names and has changed
    no earlier record: unlike [assign_agent] it completes nothing, so the
    records with status ["assigned"] of that technician are those of
    before and the new one. The first technician with that id is marked as
    assigned to the customer; the customers are as they were. *)
Theorem recommend_effects (s : services) (customer_id : Z) (e : env)
    (top3 : list doc) (best_id : pyval)
    (Hdone : fst (recommend_technician s customer_id e)
             = Recommended top3 best_id) :
  let before := db e in
  let after := db (snd (recommend_technician s customer_id e)) in
  exists record,
    assignments after = assignments before ++ [record] /\
    record !! "tech_id" = Some best_id /\
    record !! "customer_id" = Some (PNum (inject_Z customer_id)) /\
    record !! "status" = Some (PStr "assigned") /\
    record !! "method" = Some (PStr "ORS") /\
    open_for best_id (assignments after) =
      open_for best_id (assignments before) ++ [record] /\
    technicians after =
      coll_update_one (All [Is "id" best_id])
        (recommended_fields customer_id) (technicians before) /\
    Forall2 (only_sets availability_fields) (technicians before)
      (technicians after) /\
    customers after = customers before.
Proof.
  cbv zeta.
  destruct (recommend_cases s customer_id e)
    as [(x & _ & Hrun)|[(t3 & b & _ & _ & _ & Hrun)
        |(t3 & b & id & name & km & _ & _ & _ & _ & Hrun)]];
    rewrite Hrun in Hdone |- *; try discriminate.
  injection Hdone as -> ->.
  cbn [snd db insert_assignment on_technicians assignments technicians
       customers next_oid].
  eexists. split; [reflexivity|].
  assert (Htid : (<["_id" := PObjId (next_oid (db e))]>
                    (recommendation_record customer_id best_id
                       (PNum (round2 km)) (PStr "ORS"))) !! "tech_id"
                 = Some best_id)
    by now rewrite lookup_insert_ne.
  assert (Hstatus : (<["_id" := PObjId (next_oid (db e))]>
                       (recommendation_record customer_id best_id
                          (PNum (round2 km)) (PStr "ORS"))) !! "status"
                    = Some (PStr "assigned"))
    by now rewrite lookup_insert_ne.
  split; [exact Htid|]. split; [now rewrite lookup_insert_ne|].
  split; [exact Hstatus|]. split; [now rewrite lookup_insert_ne|].
  split.
  { rewrite open_for_app. f_equal. cbn [open_for List.filter].
    now rewrite (field_is_same _ _ _ Htid), (field_is_same _ _ _ Hstatus). }
  split; [reflexivity|]. split; [|reflexivity].
  eapply Forall2_impl;
    [exact (update_one_only_sets (All [Is "id" best_id])
              (recommended_fields customer_id) (technicians (db e)))|].
  intros d d' Hset k Hk. apply Hset. cbn in *. tauto.
Qed.

Lemma recommend_effects_witness :
  exists record,
    open_for (PNum 2)
      (assignments (db (snd (recommend_technician (Scenario.road "2") 7
                               (Scenario.start Scenario.scenario_main))))) =
      [Scenario.assignment 2 5 "assigned"; record].
Proof.
  destruct (recommend_effects (Scenario.road "2") 7
              (Scenario.start Scenario.scenario_main)
              [distance_entry (PNum 1) (PStr "tech") (15 # 10) "ORS";
               distance_entry (PNum 2) (PStr "tech") (25 # 10) "ORS"]
              (PNum 2) eq_refl)
    as (record & _ & _ & _ & _ & _ & Hopen & _).
  exists record. exact Hopen.
Defined.

(** X14. [recommend_technician] writes only when it answers. Otherwise it
    leaves the environment as it was, and ends either with one of its own
    errors (404 "Customer not found", 404 "No available technicians", 500
    "No distances could be computed"), or with the [KeyError] of a stored
    document that lacks a field it reads, or with [StopIteration]. *)
Theorem recommend_failures (s : services) (customer_id : Z) (e : env) :
  match fst (recommend_technician s customer_id e) with
  | Recommended _ _ => True
  | Uncaught x =>
      recommend_error x /\ snd (recommend_technician s customer_id e) = e
  | StopIteration => snd (recommend_technician s customer_id e) = e
  end.
Proof.
  destruct (recommend_cases s customer_id e)
    as [(x & Hranked & Hrun)|[(t3 & b & _ & _ & _ & Hrun)
        |(t3 & b & id & name & km & _ & _ & _ & _ & Hrun)]];
    rewrite Hrun; cbn [fst snd]; try easy.
  split; [|reflexivity]. eapply ranked_raises; eassumption.
Qed.

Lemma find_one_member (q : query) (c : list doc) (d : doc) :
  In d c -> matches q d = true -> exists d', coll_find_one q c = Some d'.
Proof.
  intros Hin Hm. unfold coll_find_one.
  destruct (find (matches q) c) as [d'|] eqn:Hfind; [eauto|].
  pose proof (find_none _ _ Hfind d Hin) as Hno. congruence.
Qed.

Lemma update_many_length (q : query) (upd : list (string * pyval))
    (c : list doc) :
  length (coll_update_many q upd c) = length c.
Proof. unfold coll_update_many. apply length_map. Qed.

(** X15. Releasing the technician that [recommend_technician] has just
    named undoes the recommendation: [complete_assignment] answers
    "success" with at least one assignment closed; afterwards the first
    technician with that id is free with no assigned customer, none of the
    technician's assignments is left open, and the assignments are those
    of before the recommendation and one more. *)
Theorem recommend_then_release (s : services) (customer_id n : Z) (e : env)
    (top3 : list doc)
    (Hdone : fst (recommend_technician s customer_id e)
             = Recommended top3 (PNum (inject_Z n))) :
  let e1 := snd (recommend_technician s customer_id e) in
  let run := complete_assignment n e1 in
  exists k d,
    fst run = Ok (Released k) /\ (1 <= k)%nat /\
    coll_find (ongoing n) (assignments (db (snd run))) = [] /\
    coll_find_one (All [Is "id" (PNum (inject_Z n))])
      (technicians (db (snd run))) = Some d /\
    d !! "is_free" = Some (PBool true) /\
    d !! "assigned_customer" = Some PNone /\
    length (assignments (db (snd run))) = S (length (assignments (db e))).
Proof.
  cbv zeta.
  destruct (recommend_cases s customer_id e)
    as [(x & _ & Hrun)|[(t3 & b & _ & _ & _ & Hrun)
        |(t3 & b & id & name & km & Hranked & _ & Hin & _ & Hrun)]];
    rewrite Hrun in Hdone |- *; try discriminate.
  injection Hdone as -> ->. cbn [snd].
  set (by_id := All [Is "id" (PNum (inject_Z n))]).
  destruct (ranked_free _ _ _ _ _ _ _ Hranked Hin)
    as (tech & Htech & _ & Hid).
  assert (Hmatch : matches by_id tech = true).
  { cbn. now rewrite (field_is_same _ _ _ Hid). }
  destruct (find_one_member by_id _ _ Htech Hmatch) as [d Hfind].
  assert (Hkeep : forall upd,
            ~ In "id"%string (List.map fst upd) ->
            forall d0, matches by_id d0 = true ->
                       matches by_id (set_fields upd d0) = true).
  { intros upd Hupd d0 Hm. unfold by_id in *.
    cbn [matches forallb holds] in *. unfold field_is in *.
    now rewrite set_fields_other. }
  assert (Hd : matches by_id d = true).
  { apply find_some in Hfind. tauto. }
  set (d1 := set_fields (recommended_fields customer_id) d).
  assert (Hfind1 : coll_find_one by_id
                     (coll_update_one by_id (recommended_fields customer_id)
                        (technicians (db e))) = Some d1).
  { apply find_one_update_one; [exact Hfind|].
    apply Hkeep; [cbn; intuition discriminate|exact Hd]. }
  rewrite complete_assignment_eq.
  cbn [db insert_assignment on_technicians technicians assignments].
  fold by_id. rewrite Hfind1.
  rewrite bool_decide_eq_false_2 by (unfold d1; cbn; apply insert_non_empty).
  replace (d1 !! "is_free") with (Some (PBool false))
    by (unfold d1; cbn; now rewrite !lookup_insert_ne by discriminate;
        rewrite lookup_insert_eq).
  cbn [default from_option id truthy fst snd db released on_assignments
       on_technicians technicians assignments].
  fold by_id.
  eexists _, (set_fields released_fields d1).
  split; [reflexivity|]. split.
  { unfold coll_find. rewrite List.filter_app, length_app.
    cbn [List.filter]. 
    replace (matches (ongoing n) _) with true; [cbn [length]; lia|].
    symmetry. cbn [matches ongoing forallb holds].
    rewrite (field_is_same _ "tech_id" (PNum (inject_Z n)))
      by now rewrite lookup_insert_ne.
    unfold field_is. now rewrite lookup_insert_ne by discriminate. }
  split; [apply ongoing_closed|]. split.
  { apply find_one_update_one; [exact Hfind1|].
    apply Hkeep; [cbn; intuition discriminate|].
    apply Hkeep; [cbn; intuition discriminate|exact Hd]. }
  split; [apply released_is_free|]. split.
  { cbn. rewrite lookup_insert_ne by discriminate. apply lookup_insert_eq. }
  rewrite update_many_length.
  cbn [assignments insert_assignment on_technicians].
  rewrite length_app. cbn [length]. lia.
Qed.

Lemma recommend_then_release_witness :
  exists k,
    fst (complete_assignment 2
           (snd (recommend_technician (Scenario.road "2") 7
                   (Scenario.start Scenario.scenario_main))))
      = Ok (Released k) /\ (1 <= k)%nat.
Proof.
  destruct (recommend_then_release (Scenario.road "2") 7 2
              (Scenario.start Scenario.scenario_main)
              [distance_entry (PNum 1) (PStr "tech") (15 # 10) "ORS";
               distance_entry (PNum 2) (PStr "tech") (25 # 10) "ORS"]
              eq_refl)
    as (k & d & Hrun & Hk & _).
  exists k. split; assumption.
Defined.

(** ** Reading the answer of the model service *)

Lemma digits_app (s1 s2 : string) :
  digits (String.append s1 s2) = digits s1 ++ digits s2.
Proof.
  induction s1 as [|a r IH]; [reflexivity|].
  change (digits (String.append (String a r) s2))
    with (if is_digit a
          then Z.of_nat (nat_of_ascii a - 48) :: digits (String.append r s2)
          else digits (String.append r s2)).
  change (digits (String a r))
    with (if is_digit a then Z.of_nat (nat_of_ascii a - 48) :: digits r
          else digits r).
  destruct (is_digit a); [rewrite IH; reflexivity|exact IH].
Qed.

Lemma fold_decimal (ds : list Z) (acc : Z) :
  fold_left (fun acc d => 10 * acc + d) ds acc =
    acc * 10 ^ Z.of_nat (length ds) + decimal ds.
Proof.
  unfold decimal. revert acc. induction ds as [|d r IH]; intros acc.
  - cbn. lia.
  - cbn [fold_left length]. rewrite IH, (IH (10 * 0 + d)).
    rewrite Nat2Z.inj_succ, Z.pow_succ_r by lia. lia.
Qed.

Lemma decimal_app (ds1 ds2 : list Z) :
  decimal (ds1 ++ ds2) =
    decimal ds1 * 10 ^ Z.of_nat (length ds2) + decimal ds2.
Proof.
  unfold decimal at 1. rewrite fold_left_app. fold (decimal ds1).
  apply fold_decimal.
Qed.

Lemma prompt_lines_measured (techs top3 : list doc) :
  Forall (measured_entry techs) top3 -> prompt_lines top3 = Ok tt.
Proof.
  induction 1 as [|t r (tech & id & name & km & _ & _ & _ & ->) _ IH];
    [reflexivity|].
  cbn [prompt_lines]. now rewrite IH.
Qed.

(** X16. [llm_recommend_best_technician] reads the id off the answer by
    gluing together every digit of its text: when the text is [pre]
    followed by [post] and [pre] holds a digit, the id is the decimal value
    of the digits of [pre] shifted left by the number of digits of [post],
    plus the decimal value of those (so a figure quoted after the id
    becomes part of it). When the text holds no digit, the id of the first
    entry of the shortlist is returned instead. *)
Theorem model_answer_glues_digits (s : services) (customer_id : Z)
    (techs top3 : list doc) (reply : pyval) (text : string)
    (Hentries : Forall (measured_entry techs) top3)
    (Hreply : chat s customer_id top3 = Some reply)
    (Hcontent : (a <~ getitem reply "choices" ;;
                 b <~ getitem0 a ;;
                 c <~ getitem b "message" ;;
                 getitem c "content") = Ok (PStr text)) :
  (forall pre post,
     text = String.append pre post -> digits pre <> [] ->
     llm_recommend_best_technician s customer_id top3 =
       Ok (PNum (inject_Z (decimal (digits pre)
                             * 10 ^ Z.of_nat (length (digits post))
                           + decimal (digits post))))) /\
  (digits text = [] ->
   forall first rest, top3 = first :: rest ->
     llm_recommend_best_technician s customer_id top3 =
       field first "technician_id").
Proof.
  assert (Hpick : model_pick s customer_id top3 = int_of_digits (digits text)).
  { unfold model_pick.
    rewrite (prompt_lines_measured _ _ Hentries), Hreply. cbn [rbind deref].
    destruct (getitem reply "choices") as [a|]; [|discriminate].
    cbn [rbind] in *. destruct (getitem0 a) as [b|]; [|discriminate].
    cbn [rbind] in *. destruct (getitem b "message") as [c|]; [|discriminate].
    cbn [rbind] in *. rewrite Hcontent. reflexivity. }
  unfold llm_recommend_best_technician. rewrite Hpick. split.
  - intros pre post -> Hpre. rewrite digits_app.
    unfold int_of_digits.
    destruct (digits pre ++ digits post) as [|d r] eqn:Hds.
    + apply app_eq_nil in Hds. tauto.
    + now rewrite <- Hds, decimal_app.
  - intros -> first rest ->. reflexivity.
Qed.

Lemma model_answer_glues_digits_witness :
  llm_recommend_best_technician (Scenario.road "Technician 2 (1.5 km)") 7
    [distance_entry (PNum 1) (PStr "tech") (15 # 10) "ORS";
     distance_entry (PNum 2) (PStr "tech") (25 # 10) "ORS"] =
    Ok (PNum (inject_Z 215)).
Proof.
  refine (proj1 (model_answer_glues_digits
                   (Scenario.road "Technician 2 (1.5 km)") 7
                   [Scenario.technician 1 1 2 true;
                    Scenario.technician 2 1 (101 # 100) true]
                   [distance_entry (PNum 1) (PStr "tech") (15 # 10) "ORS";
                    distance_entry (PNum 2) (PStr "tech") (25 # 10) "ORS"]
                   (Scenario.completion "Technician 2 (1.5 km)")
                   "Technician 2 (1.5 km)" _ eq_refl eq_refl)
                "Technician 2" " (1.5 km)" eq_refl _).
  - constructor; [|constructor; [|constructor]].
    + exists (Scenario.technician 1 1 2 true), (PNum 1), (PStr "tech"),
             (15 # 10)%Q.
      split; [now left|repeat split].
    + exists (Scenario.technician 2 1 (101 # 100) true), (PNum 2),
             (PStr "tech"), (25 # 10)%Q.
      split; [right; now left|repeat split].
  - discriminate.
Defined.

(** ** The exceptions of the ranker and of the graph *)

Lemma rank_members (l annotated : list doc) (t' : doc) :
  Forall2 loop_mark l annotated -> In t' (rank annotated) ->
  exists t km tag,
    In t l /\ t' = marked t (Some (round2 km)) tag /\
    In tag distance_tags /\ is_Some (t !! "technician_id").
Proof.
  intros Hmarks Hin. destruct (rank_resolved _ _ Hin) as [Hann Hres].
  destruct (loop_mark_of_member _ _ _ Hmarks Hann) as (t & Ht & Hmark).
  destruct Hmark as [->|(km & tag & -> & Htag & Hid)].
  - unfold unresolved in Hres. rewrite resolved_marked in Hres. discriminate.
  - exists t, km, tag. auto.
Qed.

Lemma prompt_entries_nameless (l : list doc) (x : exn) :
  Forall (fun t' => exists t km tag,
            t' = marked t (Some (round2 km)) tag /\
            is_Some (t !! "technician_id")) l ->
  prompt_entries l = Raise x ->
  x = KeyError "name" /\ exists t', In t' l /\ t' !! "name" = None.
Proof.
  induction 1 as [|t' r (t & km & tag & -> & [tid Htid]) _ IH];
    [discriminate|].
  cbn [prompt_entries]. unfold prompt_entry, field.
  rewrite marked_other, Htid by discriminate. cbn [rbind].
  rewrite marked_distance.
  destruct (marked t (Some (round2 km)) tag !! "name") eqn:Hname;
    cbn [rbind].
  - destruct (prompt_entries r) as [xs|y]; cbn [rbind]; [discriminate|].
    intros [= <-]. destruct (IH eq_refl) as (-> & t0 & Hin & H0).
    split; [reflexivity|]. exists t0. split; [now right|exact H0].
  - intros [= <-]. split; [reflexivity|]. eexists. split; [now left|exact Hname].
Qed.

Lemma json_list_cons (x : pyval) (r : list pyval) :
  json_serialisable (PList (x :: r)) =
    json_serialisable x && json_serialisable (PList r).
Proof. reflexivity. Qed.

Lemma json_entry (a b c : string) (i n k : pyval) :
  json_serialisable (PDict [(a, i); (b, n); (c, k)]) =
    json_serialisable i && (json_serialisable n && json_serialisable k).
Proof. cbn. now rewrite andb_true_r. Qed.

(** When [json.dumps] refuses the list of the prompt, one of the entries
    holds a value it cannot encode. *)
Lemma prompt_entries_unserialisable (l : list doc) (entries : list pyval) :
  prompt_entries l = Ok entries ->
  json_serialisable (PList entries) = false ->
  exists t' i n k,
    In t' l /\ t' !! "technician_id" = Some i /\ t' !! "name" = Some n /\
    t' !! "distance_km" = Some k /\
    (json_serialisable i = false \/ json_serialisable n = false \/
     json_serialisable k = false).
Proof.
  revert entries. induction l as [|t r IH]; intros entries.
  - intros [= <-]. discriminate.
  - cbn [prompt_entries]. unfold prompt_entry, field.
    destruct (t !! "technician_id") as [i|] eqn:Hi; cbn [rbind];
      [|discriminate].
    destruct (t !! "name") as [n|] eqn:Hn; cbn [rbind]; [|discriminate].
    destruct (t !! "distance_km") as [k|] eqn:Hk; cbn [rbind];
      [|discriminate].
    destruct (prompt_entries r) as [xs|] eqn:Hr; cbn [rbind]; [|discriminate].
    intros [= <-]. rewrite json_list_cons, json_entry.
    intros Hbad. apply andb_false_iff in Hbad. destruct Hbad as [Hbad|Hbad].
    + exists t, i, n, k. split; [now left|]. repeat (split; [assumption|]).
      destruct (json_serialisable i); [|now left].
      destruct (json_serialisable n); [|right; now left].
      right. right. exact Hbad.
    + destruct (IH xs eq_refl Hbad) as (t' & i' & n' & k' & Hin & Hrest).
      exists t', i', n', k'. split; [now right|exact Hrest].
Qed.

Lemma ranker_raises (w : world) (state : DispatchState) (e : env) (x : exn) :
  fst (compute_proximity_agent w state e) = Raise x ->
  x = no_free \/ x = no_valid \/
  (x = KeyError "name" /\ exists t, nameless e t) \/
  (x = TypeError /\ exists t, unserialisable e t).
Proof.
  unfold compute_proximity_agent, bind, read_db.
  set (candidates := coll_find _ _).
  assert (Hfree : forall t, In t candidates ->
            In t (technicians (db e)) /\
            field_is t "is_free" (PBool true) = true).
  { intros t Hin. apply filter_In in Hin. destruct Hin as [Hin Hm].
    cbn in Hm. now rewrite andb_true_r in Hm. }
  destruct (for_each_annotate w (customer state) candidates e)
    as (annotated & e1 & Hrun & Hdb & _).
  pose proof (for_each_Forall2 _ loop_mark
                (fun t e0 t' e' => annotate_mark w (customer state) t t' e0 e')
                _ _ _ _ Hrun) as Hmarks.
  destruct candidates as [|c0 cs]; [intros [= <-]; now left|].
  rewrite Hrun. destruct (rank annotated) as [|first rest] eqn:Hrank;
    [intros [= <-]; right; now left|].
  unfold lift.
  destruct (prompt_entries (first :: rest)) as [entries|y] eqn:Hp.
  - unfold json_dumps.
    destruct (json_serialisable (PList entries)) eqn:Hj.
    + rewrite choose_eq. discriminate.
    + intros [= <-]. right. right. right. split; [reflexivity|].
      rewrite <- Hrank in Hp.
      destruct (prompt_entries_unserialisable _ _ Hp Hj)
        as (t' & i & n & k & Hin & Hi & Hn & Hk & Hbad).
      destruct (rank_members _ _ _ Hmarks Hin)
        as (t & km & tag & Ht & -> & _ & _).
      rewrite marked_other in Hi, Hn by discriminate.
      rewrite marked_distance in Hk. injection Hk as <-.
      destruct (Hfree t Ht) as [Hmem Hisfree].
      exists t. split; [exact Hmem|]. split; [exact Hisfree|].
      exists i, n. split; [exact Hi|]. split; [exact Hn|].
      destruct Hbad as [Hbad|[Hbad|Hbad]]; [now left|now right|discriminate].
  - intros [= <-]. right. right. left. rewrite <- Hrank in Hp.
    assert (Hall : Forall (fun t' => exists t km tag,
                     t' = marked t (Some (round2 km)) tag /\
                     is_Some (t !! "technician_id")) (rank annotated)).
    { apply List.Forall_forall. intros t' Hin.
      destruct (rank_members _ _ _ Hmarks Hin)
        as (t & km & tag & _ & -> & _ & Hid). eauto. }
    destruct (prompt_entries_nameless _ _ Hall Hp) as (-> & t' & Hin & Hname).
    split; [reflexivity|].
    destruct (rank_members _ _ _ Hmarks Hin)
      as (t & km & tag & Ht & -> & _ & Hid).
    rewrite marked_other in Hname by discriminate.
    destruct (Hfree t Ht). exists t. repeat split; auto.
Qed.

(** X17. A technician whose document has no [technician_id] is marked as
    failed even when its coordinates are good: the chain is asked first
    (its first call is to the primary provider), and the distance it gives
    is thrown away by the handler of the loop. *)
Theorem anonymous_technician_fails (w : world) (customer : option doc)
    (tech : doc) (a b : coord) (e : env)
    (Hcoords : read_coords w customer tech = Ok (a, b))
    (Hanon : tech !! "technician_id" = None) :
  exists made,
    annotate w customer tech e = (Ok (unresolved tech), logged e made) /\
    (1 <= length made <= 3)%nat /\
    hd_error made = Some (CallORS a b) /\
    resolved (unresolved tech) = false.
Proof.
  rewrite annotate_eq, Hcoords, Hanon. cbv zeta.
  eexists. split; [reflexivity|]. unfold resolve_chain.
  split; [|split].
  - destruct (primary w _ a b) as [k1|];
      [|destruct (secondary w _ a b) as [k2|];
        [|destruct (geometric w a b) as [k3|]]]; cbn; lia.
  - destruct (primary w _ a b) as [k1|];
      [|destruct (secondary w _ a b) as [k2|];
        [|destruct (geometric w a b) as [k3|]]]; reflexivity.
  - unfold unresolved. now rewrite resolved_marked.
Qed.

Lemma anonymous_technician_fails_witness :
  exists made,
    annotate Scenario.unreachable (Some (Scenario.client 7 1 1))
      Scenario.nameless_id (Scenario.start Scenario.scenario_a') =
      (Ok (unresolved Scenario.nameless_id),
       logged (Scenario.start Scenario.scenario_a') made) /\
    hd_error made = Some (CallORS (1, 1)%Q (1, 2)%Q).
Proof.
  destruct (anonymous_technician_fails Scenario.unreachable
              (Some (Scenario.client 7 1 1)) Scenario.nameless_id
              (1, 1)%Q (1, 2)%Q (Scenario.start Scenario.scenario_a')
              eq_refl eq_refl) as (made & Hrun & _ & Hhd & _).
  exists made. split; assumption.
Defined.

(** X18. The ranker raises nothing but its two errors and the two
    exceptions of building the prompt: [KeyError "name"], and then one of
    the free technicians has a [technician_id] but no [name]; or the
    [TypeError] of [json.dumps], and then one of the free technicians has a
    [technician_id] or a [name] that cannot be encoded. In every case the
    database is as it was. *)
Theorem ranker_exceptions (w : world) (state : DispatchState) (e : env)
    (x : exn)
    (Hraise : fst (compute_proximity_agent w state e) = Raise x) :
  (x = no_free \/ x = no_valid \/ x = KeyError "name" \/ x = TypeError) /\
  (x = KeyError "name" -> exists t, nameless e t) /\
  (x = TypeError -> exists t, unserialisable e t) /\
  db (snd (compute_proximity_agent w state e)) = db e.
Proof.
  destruct (ranker_raises w state e x Hraise)
    as [->|[->|[(-> & t & Ht)|(-> & t & Ht)]]].
  - split; [now left|]. repeat split; try discriminate; auto using ranker_db.
  - split; [right; now left|].
    repeat split; try discriminate; auto using ranker_db.
  - split; [right; right; now left|].
    repeat split; try discriminate; eauto using ranker_db.
  - split; [right; right; now right|].
    repeat split; try discriminate; eauto using ranker_db.
Qed.

Lemma ranker_exceptions_witness :
  exists t, unserialisable (Scenario.start Scenario.scenario_oid) t.
Proof.
  refine (proj1 (proj2 (proj2
            (ranker_exceptions Scenario.unreachable
               (mkState (Scenario.ticket_for 7)
                  (Some (Scenario.client 7 1 1)) None None)
               (Scenario.start Scenario.scenario_oid) TypeError _)))
            eq_refl).
  vm_compute. reflexivity.
Defined.

Lemma load_customer_found (tk : doc) (e : env) (s1 : DispatchState) :
  load_customer_agent (mkState tk None None None) e = (Ok s1, e) ->
  exists c v,
    s1 = mkState tk (Some c) None None /\
    In c (customers (db e)) /\ c !! "customer_id" = Some v.
Proof.
  intros Hload.
  destruct (load_customer_outcome_aux tk e s1 Hload) as (c & -> & Hin & Hm).
  revert Hload. rewrite load_customer_eq. cbv zeta. cbn [ticket].
  destruct (is_none (get tk "id")) eqn:Hid; [discriminate|]. intros _.
  unfold field_is in Hm. destruct (c !! "customer_id") as [v|] eqn:Hv.
  - exists c, v. auto.
  - destruct (get tk "id"); cbn in Hm, Hid; congruence.
Qed.

Lemma load_customer_raises (tk : doc) (e : env) (x : exn) :
  fst (load_customer_agent (mkState tk None None None) e) = Raise x ->
  x = Exception "Missing customer ID in ticket" \/
  x = ExceptionF "Customer with ID " (get tk "id") " not found".
Proof.
  rewrite load_customer_eq. cbv zeta. cbn [fst ticket].
  destruct (is_none _); [intros [= <-]; now left|].
  destruct (doc_falsy _); [intros [= <-]; now right|discriminate].
Qed.

(** X19. A dispatch raises nothing but the two errors of the loader (no id
    in the ticket; no customer with that id, the id being part of the
    message), the two errors of the ranker, the [KeyError] of a stored
    document without [name] or [_id], and the [TypeError] of [json.dumps]
    in the prompt of the ranker, which takes a free technician whose id or
    name cannot be encoded. It never fails with [AttributeError]: the
    technician and the customer that [assign_agent] looks up again are
    always found. Unless the exception is a [KeyError], the database is as
    it was. *)
Theorem dispatch_exceptions (w : world) (tk : doc) (e : env) (x : exn)
    (Hraise : fst (dispatch w tk e) = Raise x) :
  (x = Exception "Missing customer ID in ticket" \/
   x = ExceptionF "Customer with ID " (get tk "id") " not found" \/
   x = no_free \/ x = no_valid \/
   x = KeyError "name" \/ x = KeyError "_id" \/ x = TypeError) /\
  (x = TypeError -> exists t, unserialisable e t) /\
  (x <> KeyError "name" -> x <> KeyError "_id" ->
   db (snd (dispatch w tk e)) = db e).
Proof.
  revert Hraise. unfold dispatch, bind.
  pose proof (load_customer_raises tk e) as Hload.
  pose proof (load_customer_found tk e) as Hfound.
  pose proof (load_customer_eq (mkState tk None None None) e) as Henv.
  destruct (load_customer_agent (mkState tk None None None) e)
    as [[s1|y] e0] eqn:Hrun.
  2: { injection Henv as _ ->. cbn [fst snd]. intros [= ->].
       destruct (Hload x eq_refl) as [->| ->];
         (split; [tauto|]); (split; [discriminate|reflexivity]). }
  injection Henv as _ ->.
  destruct (Hfound s1 eq_refl) as (c & v & -> & Hc & Hv).
  pose proof (ranker_raises w (mkState tk (Some c) None None) e) as Hrank.
  pose proof (ranker_db w (mkState tk (Some c) None None) e) as Hdb.
  destruct (compute_proximity_agent w (mkState tk (Some c) None None) e)
    as [[s2|y] e2] eqn:Hranker.
  2: { cbn [fst snd] in *. intros [= ->].
       destruct (Hrank x eq_refl) as [->|[->|[[-> _]|[-> Hbad]]]];
         (split; [tauto|]); (split; [|intros _ _; exact Hdb]);
         first [discriminate | intros _; exact Hbad]. }
  cbn [snd] in Hdb.
  destruct (ranker_returns w _ s2 e e2 Hranker)
    as (t & km & tag & reason & -> & Ht & _ & _ & [tid Htid] & _).
  rewrite assign_agent_eq. cbn [best customer ticket llm_reason]. cbv zeta.
  rewrite Hdb.
  assert (Hget : get (marked t (Some (round2 km)) tag) "technician_id" = tid).
  { unfold get. now rewrite marked_other, Htid by discriminate. }
  rewrite Hget.
  assert (Hgetc : get c "customer_id" = v) by (unfold get; now rewrite Hv).
  rewrite Hgetc.
  destruct (find_one_member (All [Is "technician_id" tid]) _ t Ht)
    as [td ->]; [cbn; now rewrite (field_is_same _ _ _ Htid)|].
  destruct (find_one_member (All [Is "customer_id" v]) _ c Hc)
    as [cd ->]; [cbn; now rewrite (field_is_same _ _ _ Hv)|].
  destruct (td !! "_id") as [toid|];
    [|cbn [fst]; intros [= <-]; split; [tauto|split; [discriminate|tauto]]].
  destruct (cd !! "_id") as [coid|], (cd !! "name") as [cname|],
           (td !! "name") as [tname|]; cbn [fst]; try discriminate.
  all: intros [= <-]; split; [tauto|split; [discriminate|tauto]].
Qed.

Lemma dispatch_exceptions_witness :
  db (snd (dispatch Scenario.unreachable (Scenario.ticket_for 7)
             (Scenario.start Scenario.scenario_oid))) = Scenario.scenario_oid.
Proof.
  refine (proj2 (proj2 (dispatch_exceptions Scenario.unreachable
                          (Scenario.ticket_for 7)
                          (Scenario.start Scenario.scenario_oid) TypeError
                          _)) _ _).
  - vm_compute. reflexivity.
  - discriminate.
  - discriminate.
Defined.
